(** * jupyter_lsp.manager: the language-server manager, embedded in Rocq

    A shallow embedding of [jupyter_lsp/manager.py]: the resolution of the
    language-server specs from entry points and configuration, the creation
    of sessions, the registration of message listeners, the subscription
    of websocket handlers and the two message paths.

    Python dicts used as maps are [gmap]s, Python sets are [gset]s living
    in an object store (so that rebinding an attribute and mutating an
    object stay different things), methods are computations in a small
    state-and-trace monad whose outcome is a return value or a raised
    exception. *)

From stdpp Require Import gmap strings list fin_maps.

Open Scope string_scope.
Open Scope list_scope.

(** ** Data model *)

(** Server keys, messages and listener names are strings: a message is
    the serialized JSON-RPC payload, passed through unread; a listener is
    known by the name of the callable. *)

(** A language-server spec is a JSON object; [argv] is its only key the
    manager reads, the other keys are carried along untouched. [argv = None]
    is a spec without the key. *)
Record Spec := {
  argv : option (list string);
  other_keys : list (string * string);
}.

#[global] Instance Spec_eq_dec : EqDecision Spec.
Proof. solve_decision. Defined.

(** Python truthiness of [spec.get("argv")]: [None] and [[]] are falsy. *)
Definition truthy_argv (spec : Spec) : bool :=
  match argv spec with
  | Some (_ :: _) => true
  | _ => false
  end.

(** [MessageScope] of [types.py], as [manager.py] uses it. *)
Inductive MessageScope := ALL | CLIENT | SERVER.

#[global] Instance MessageScope_eq_dec : EqDecision MessageScope.
Proof. solve_decision. Defined.

(** A websocket handler: Python compares and hashes handlers by identity,
    which [handler_id] stands for; [language_server] is the key it is bound
    to; [ws_open] says whether [write_message] succeeds (tornado raises
    [WebSocketClosedError] on a closed socket). *)
Record Handler := {
  handler_id : nat;
  language_server : string;
  ws_open : bool;
}.

#[global] Instance Handler_eq_dec : EqDecision Handler.
Proof. solve_decision. Defined.

#[global] Instance Handler_countable : Countable Handler.
Proof.
  refine (inj_countable'
    (λ h, (handler_id h, language_server h, ws_open h))
    (λ t, {| handler_id := t.1.1; language_server := t.1.2; ws_open := t.2 |}) _).
  by intros [].
Defined.

(** A [LanguageServerSession]: the manager reads and rebinds its [handlers]
    attribute, which refers to a set object in the store. *)
Record LanguageServerSession := {
  session_language_server : string;
  spec : Spec;
  handlers : nat;
}.

#[global] Instance LanguageServerSession_eq_dec : EqDecision LanguageServerSession.
Proof. solve_decision. Defined.

(** The manager with the objects it refers to. [sessions] maps a key to a
    reference into [session_objs]; [set_objs] holds the set objects that
    the sessions' [handlers] attributes refer to. The three [registered_*]
    lists are the class-level listener registry of [types.py]. *)
Record LanguageServerManager := {
  conf_d_language_servers : gmap string Spec;
  language_servers : gmap string Spec;
  autodetect : bool;
  sessions : gmap string nat;
  all_listeners : list string;
  server_listeners : list string;
  client_listeners : list string;
  all_language_servers : gmap string Spec;
  _language_servers_from_config : gmap string Spec;
  registered_all : list string;
  registered_client : list string;
  registered_server : list string;
  session_objs : gmap nat LanguageServerSession;
  set_objs : gmap nat (gset Handler);
}.

(** ** Outcomes, events and the monad of methods *)

(** What a Python call does: return a value or raise. *)
Inductive attempt (A : Type) :=
| Returned (a : A)
| Raised (exn : string).
Arguments Returned {A} a.
Arguments Raised {A} exn.

Inductive LogLevel := LvlError | LvlWarning | LvlInfo | LvlException.

(** The observable effects of the manager's methods, in the order they
    happen. *)
Inductive Event :=
| Log (level : LogLevel) (text : string)
| ListenerCalled (scope : MessageScope) (listener : string)
    (message : string) (key : string)
| ListenerDone (scope : MessageScope) (listener : string)
    (message : string) (key : string)
| ListenerRegistered (scope : MessageScope) (listener : string)
| SessionCreated (key : string) (session : nat)
| SessionWrite (session : nat) (message : string)
| HandlerWrite (handler : Handler) (message : string).

#[global] Instance LogLevel_eq_dec : EqDecision LogLevel.
Proof. solve_decision. Defined.
#[global] Instance Event_eq_dec : EqDecision Event.
Proof. solve_decision. Defined.

(** A method: from the manager's state to an outcome, the new state and the
    events emitted. *)
Definition Method (A : Type) : Type :=
  LanguageServerManager → attempt A * LanguageServerManager * list Event.

Definition ret {A} (a : A) : Method A := λ m, (Returned a, m, []).
Definition raise {A} (exn : string) : Method A := λ m, (Raised exn, m, []).
Definition bind {A B} (c : Method A) (k : A → Method B) : Method B :=
  λ m, match c m with
       | (Returned a, m1, t1) =>
           match k a m1 with (r, m2, t2) => (r, m2, t1 ++ t2) end
       | (Raised exn, m1, t1) => (Raised exn, m1, t1)
       end.
Definition get : Method LanguageServerManager := λ m, (Returned m, m, []).
Definition put (m' : LanguageServerManager) : Method unit :=
  λ _, (Returned tt, m', []).
Definition emit (e : Event) : Method unit := λ m, (Returned tt, m, [e]).

(** A call outside the manager, with what it does: its value goes on, its
    exception propagates. *)
Definition call {A} (r : attempt A) : Method A := λ m, (r, m, []).

Notation "'let*' x := c 'in' k" := (bind c (λ x, k))
  (at level 10, x pattern, c at level 100, k at level 200).
Notation "'do' c 'then' k" := (bind c (λ _, k))
  (at level 10, c at level 100, k at level 200).

Definition outcome {A} (r : attempt A * LanguageServerManager * list Event) :
  attempt A := r.1.1.
Definition state_after {A} (r : attempt A * LanguageServerManager * list Event) :
  LanguageServerManager := r.1.2.
Definition trace {A} (r : attempt A * LanguageServerManager * list Event) :
  list Event := r.2.

(** ** Entry points *)

(** A spec finder is called with the manager; it may have an [is_installed]
    method ([None]: no such attribute). Either call may raise. The finder
    returns a dict of specs (in insertion order) or a falsy value. *)
Record SpecFinder := {
  is_installed : option (LanguageServerManager → attempt bool);
  find_specs : LanguageServerManager → attempt (option (list (string * Spec)));
}.

Record EntryPoint := {
  ep_name : string;
  load : attempt SpecFinder;
}.

(** What lies outside the manager: the [entrypoints] groups and the JSON
    schema [LANGUAGE_SERVER_SPEC_MAP] (of [schema.py]), taken through its
    [iter_errors]. Reading a group is a call of
    [entrypoints.get_group_named], which may raise, for the group of the
    specs as for the group of the listeners of a scope; a listener entry
    point has a name and a load that may raise. *)
Record Environment := {
  spec_entry_points : attempt (list EntryPoint);
  listener_entry_points :
    MessageScope → attempt (list (string * attempt string));
  iter_errors : list (string * Spec) → list string;
}.

(** ** Python dict updates *)

(** [d.update(other)] for a dict [other]: the entries of [other] replace
    those of [d] that share a key. *)
Definition dict_update {V} (d other : gmap string V) : gmap string V :=
  other ∪ d.

(** [d.update(pairs)] for an iterable of pairs: [d[key] = value] for each
    pair in turn, so the last pair of a key stays. *)
Definition dict_update_items {V} (d : gmap string V)
    (pairs : list (string * V)) : gmap string V :=
  foldl (λ d kv, <[kv.1 := kv.2]> d) d pairs.

(** ** Resolving the language servers *)

Section resolve.
Context (E : Environment).

(** The part of the loop body of [_autodetect_language_servers] from the
    call of the spec finder on: the specs it yields and what it logs. *)
Definition fetch_specs (m : LanguageServerManager) (ep : EntryPoint)
    (spec_finder : SpecFinder) : list Event * list (string * Spec) :=
  match find_specs spec_finder m with
  | Raised err =>
      ([Log LvlWarning
          ("Failed to fetch commands from language server spec finder `"
             ++ ep_name ep ++ "`")%string], [])
  | Returned found =>
      let specs := default [] found in
      match iter_errors E specs with
      | [] => ([], specs)
      | _ :: _ =>
          ([Log LvlWarning
              ("Failed to validate commands from language server spec finder `"
                 ++ ep_name ep ++ "`")%string], [])
      end
  end.

(** One turn of the loop over the entry points. *)
Definition entry_point_specs (m : LanguageServerManager)
    (only_installed : bool) (ep : EntryPoint) :
    list Event * list (string * Spec) :=
  match load ep with
  | Raised err =>
      ([Log LvlWarning
          ("Failed to load language server spec finder `"
             ++ ep_name ep ++ "`")%string], [])
  | Returned spec_finder =>
      if only_installed then
        match is_installed spec_finder with
        | Some check =>
            match check m with
            | Raised err =>
                ([Log LvlWarning
                    ("Failed to fetch commands from language server spec finder `"
                       ++ ep_name ep ++ "`")%string], [])
            | Returned false =>
                ([Log LvlInfo
                    ("Skipping non-installed server: `"
                       ++ ep_name ep ++ "`")%string], [])
            | Returned true => fetch_specs m ep spec_finder
            end
        | None => fetch_specs m ep spec_finder
        end
      else fetch_specs m ep spec_finder
  end.

(** The generator [_autodetect_language_servers], run to its end: the
    pairs it yields, in order, and the log records it writes. *)
Definition _autodetect_language_servers (m : LanguageServerManager)
    (only_installed : bool) : list Event * list (string * Spec) :=
  match spec_entry_points E with
  | Raised err => ([Log LvlException "Failed to load entry_points"], [])
  | Returned entry_points =>
      let turns := entry_point_specs m only_installed <$> entry_points in
      (concat (fst <$> turns), concat (snd <$> turns))
  end.

(** [language_servers_from_config] of [_collect_language_servers]. *)
Definition language_servers_from_config (m : LanguageServerManager) :
    gmap string Spec :=
  dict_update (_language_servers_from_config m) (conf_d_language_servers m).

(** The local [language_servers] after the autodetection step. *)
Definition discovered_language_servers (m : LanguageServerManager)
    (only_installed : bool) : gmap string Spec :=
  if autodetect m
  then dict_update_items ∅ (_autodetect_language_servers m only_installed).2
  else ∅.

(** The local [language_servers] once the configuration is restored,
    before the comprehension that drops the specs without [argv]. *)
Definition merged_language_servers (m : LanguageServerManager)
    (only_installed : bool) : gmap string Spec :=
  dict_update (discovered_language_servers m only_installed)
              (language_servers_from_config m).

(** The dict comprehension of the last line. *)
Definition coalesce (servers : gmap string Spec) : gmap string Spec :=
  filter (λ kv, truthy_argv kv.2 = true) servers.

Definition emit_all (events : list Event) : Method unit :=
  λ m, (Returned tt, m, events).

Definition _collect_language_servers (only_installed : bool) :
    Method (gmap string Spec) :=
  let* m := get in
  do (if autodetect m
      then emit_all (_autodetect_language_servers m only_installed).1
      else ret tt) then
  ret (coalesce (merged_language_servers m only_installed)).

End resolve.

(** ** Attribute assignment *)

(** [self.<attribute> = v], one definition per attribute that is assigned. *)
Definition set_language_servers (v : gmap string Spec) (m : LanguageServerManager) :
    LanguageServerManager :=
  {| conf_d_language_servers := conf_d_language_servers m;
     language_servers := v;
     autodetect := autodetect m;
     sessions := sessions m;
     all_listeners := all_listeners m;
     server_listeners := server_listeners m;
     client_listeners := client_listeners m;
     all_language_servers := all_language_servers m;
     _language_servers_from_config := _language_servers_from_config m;
     registered_all := registered_all m;
     registered_client := registered_client m;
     registered_server := registered_server m;
     session_objs := session_objs m;
     set_objs := set_objs m |}.

Definition set_sessions (v : gmap string nat) (m : LanguageServerManager) :
    LanguageServerManager :=
  {| conf_d_language_servers := conf_d_language_servers m;
     language_servers := language_servers m;
     autodetect := autodetect m;
     sessions := v;
     all_listeners := all_listeners m;
     server_listeners := server_listeners m;
     client_listeners := client_listeners m;
     all_language_servers := all_language_servers m;
     _language_servers_from_config := _language_servers_from_config m;
     registered_all := registered_all m;
     registered_client := registered_client m;
     registered_server := registered_server m;
     session_objs := session_objs m;
     set_objs := set_objs m |}.

Definition set_all_listeners (v : list string) (m : LanguageServerManager) :
    LanguageServerManager :=
  {| conf_d_language_servers := conf_d_language_servers m;
     language_servers := language_servers m;
     autodetect := autodetect m;
     sessions := sessions m;
     all_listeners := v;
     server_listeners := server_listeners m;
     client_listeners := client_listeners m;
     all_language_servers := all_language_servers m;
     _language_servers_from_config := _language_servers_from_config m;
     registered_all := registered_all m;
     registered_client := registered_client m;
     registered_server := registered_server m;
     session_objs := session_objs m;
     set_objs := set_objs m |}.

Definition set_server_listeners (v : list string) (m : LanguageServerManager) :
    LanguageServerManager :=
  {| conf_d_language_servers := conf_d_language_servers m;
     language_servers := language_servers m;
     autodetect := autodetect m;
     sessions := sessions m;
     all_listeners := all_listeners m;
     server_listeners := v;
     client_listeners := client_listeners m;
     all_language_servers := all_language_servers m;
     _language_servers_from_config := _language_servers_from_config m;
     registered_all := registered_all m;
     registered_client := registered_client m;
     registered_server := registered_server m;
     session_objs := session_objs m;
     set_objs := set_objs m |}.

Definition set_client_listeners (v : list string) (m : LanguageServerManager) :
    LanguageServerManager :=
  {| conf_d_language_servers := conf_d_language_servers m;
     language_servers := language_servers m;
     autodetect := autodetect m;
     sessions := sessions m;
     all_listeners := all_listeners m;
     server_listeners := server_listeners m;
     client_listeners := v;
     all_language_servers := all_language_servers m;
     _language_servers_from_config := _language_servers_from_config m;
     registered_all := registered_all m;
     registered_client := registered_client m;
     registered_server := registered_server m;
     session_objs := session_objs m;
     set_objs := set_objs m |}.

Definition set_all_language_servers (v : gmap string Spec) (m : LanguageServerManager) :
    LanguageServerManager :=
  {| conf_d_language_servers := conf_d_language_servers m;
     language_servers := language_servers m;
     autodetect := autodetect m;
     sessions := sessions m;
     all_listeners := all_listeners m;
     server_listeners := server_listeners m;
     client_listeners := client_listeners m;
     all_language_servers := v;
     _language_servers_from_config := _language_servers_from_config m;
     registered_all := registered_all m;
     registered_client := registered_client m;
     registered_server := registered_server m;
     session_objs := session_objs m;
     set_objs := set_objs m |}.

Definition set_language_servers_from_config (v : gmap string Spec) (m : LanguageServerManager) :
    LanguageServerManager :=
  {| conf_d_language_servers := conf_d_language_servers m;
     language_servers := language_servers m;
     autodetect := autodetect m;
     sessions := sessions m;
     all_listeners := all_listeners m;
     server_listeners := server_listeners m;
     client_listeners := client_listeners m;
     all_language_servers := all_language_servers m;
     _language_servers_from_config := v;
     registered_all := registered_all m;
     registered_client := registered_client m;
     registered_server := registered_server m;
     session_objs := session_objs m;
     set_objs := set_objs m |}.

Definition set_registered_all (v : list string) (m : LanguageServerManager) :
    LanguageServerManager :=
  {| conf_d_language_servers := conf_d_language_servers m;
     language_servers := language_servers m;
     autodetect := autodetect m;
     sessions := sessions m;
     all_listeners := all_listeners m;
     server_listeners := server_listeners m;
     client_listeners := client_listeners m;
     all_language_servers := all_language_servers m;
     _language_servers_from_config := _language_servers_from_config m;
     registered_all := v;
     registered_client := registered_client m;
     registered_server := registered_server m;
     session_objs := session_objs m;
     set_objs := set_objs m |}.

Definition set_registered_client (v : list string) (m : LanguageServerManager) :
    LanguageServerManager :=
  {| conf_d_language_servers := conf_d_language_servers m;
     language_servers := language_servers m;
     autodetect := autodetect m;
     sessions := sessions m;
     all_listeners := all_listeners m;
     server_listeners := server_listeners m;
     client_listeners := client_listeners m;
     all_language_servers := all_language_servers m;
     _language_servers_from_config := _language_servers_from_config m;
     registered_all := registered_all m;
     registered_client := v;
     registered_server := registered_server m;
     session_objs := session_objs m;
     set_objs := set_objs m |}.

Definition set_registered_server (v : list string) (m : LanguageServerManager) :
    LanguageServerManager :=
  {| conf_d_language_servers := conf_d_language_servers m;
     language_servers := language_servers m;
     autodetect := autodetect m;
     sessions := sessions m;
     all_listeners := all_listeners m;
     server_listeners := server_listeners m;
     client_listeners := client_listeners m;
     all_language_servers := all_language_servers m;
     _language_servers_from_config := _language_servers_from_config m;
     registered_all := registered_all m;
     registered_client := registered_client m;
     registered_server := v;
     session_objs := session_objs m;
     set_objs := set_objs m |}.

Definition set_session_objs (v : gmap nat LanguageServerSession) (m : LanguageServerManager) :
    LanguageServerManager :=
  {| conf_d_language_servers := conf_d_language_servers m;
     language_servers := language_servers m;
     autodetect := autodetect m;
     sessions := sessions m;
     all_listeners := all_listeners m;
     server_listeners := server_listeners m;
     client_listeners := client_listeners m;
     all_language_servers := all_language_servers m;
     _language_servers_from_config := _language_servers_from_config m;
     registered_all := registered_all m;
     registered_client := registered_client m;
     registered_server := registered_server m;
     session_objs := v;
     set_objs := set_objs m |}.

Definition set_set_objs (v : gmap nat (gset Handler)) (m : LanguageServerManager) :
    LanguageServerManager :=
  {| conf_d_language_servers := conf_d_language_servers m;
     language_servers := language_servers m;
     autodetect := autodetect m;
     sessions := sessions m;
     all_listeners := all_listeners m;
     server_listeners := server_listeners m;
     client_listeners := client_listeners m;
     all_language_servers := all_language_servers m;
     _language_servers_from_config := _language_servers_from_config m;
     registered_all := registered_all m;
     registered_client := registered_client m;
     registered_server := registered_server m;
     session_objs := session_objs m;
     set_objs := v |}.

(** ** The object store *)

(** A new set object; nothing already in the store is touched. *)
Definition new_set (members : gset Handler) : Method nat :=
  λ m, let ref := fresh (dom (set_objs m)) in
       (Returned ref, set_set_objs (<[ref := members]> (set_objs m)) m, []).

(** A new session object. *)
Definition new_session (s : LanguageServerSession) : Method nat :=
  λ m, let ref := fresh (dom (session_objs m)) in
       (Returned ref, set_session_objs (<[ref := s]> (session_objs m)) m, []).

(** Following a reference. A Python reference always leads to an object;
    the two error cases below are for stores that no run of the manager
    produces. *)
Definition the_set (ref : nat) : Method (gset Handler) :=
  λ m, match set_objs m !! ref with
       | Some members => (Returned members, m, [])
       | None => (Raised "dangling set reference", m, [])
       end.

Definition the_session (ref : nat) : Method LanguageServerSession :=
  λ m, match session_objs m !! ref with
       | Some s => (Returned s, m, [])
       | None => (Raised "dangling session reference", m, [])
       end.

(** [session.handlers]: the set object the attribute refers to now. *)
Definition session_handlers (session : nat) : Method (gset Handler) :=
  let* s := the_session session in the_set (handlers s).

(** Modelled from the spec: the declaration of the [handlers] attribute is
    in [session.py]; the spec has it as the set of Handlers of a Session.
    [session.handlers = value] therefore stores a new set object holding
    the members of [value] and rebinds the attribute to it; the object the
    attribute referred to before is left as it was. *)
Definition assign_handlers (session : nat) (members : gset Handler) :
    Method unit :=
  let* s := the_session session in
  let* ref := new_set members in
  λ m, (Returned tt,
        set_session_objs
          (<[session := {| session_language_server := session_language_server s;
                           spec := spec s;
                           handlers := ref |}]> (session_objs m)) m,
        []).

(** The subscribers of a session in a state, when its references resolve. *)
Definition subscribers (m : LanguageServerManager) (session : nat) :
    option (gset Handler) :=
  s ← session_objs m !! session; set_objs m !! handlers s.

(** ** Loops *)

Fixpoint for_each {A} (items : list A) (body : A → Method unit) : Method unit :=
  match items with
  | [] => ret tt
  | x :: rest => do body x then for_each rest body
  end.

(** ** Sessions *)

(** [LanguageServerSession(language_server=..., spec=..., parent=self)]:
    a new session object with a new, empty set of handlers. *)
Definition LanguageServerSession_new (key : string) (sp : Spec) : Method nat :=
  let* ref := new_set ∅ in
  let* session :=
    new_session {| session_language_server := key; spec := sp; handlers := ref |} in
  do emit (SessionCreated key session) then
  ret session.

(** The loop of [init_sessions] over [self.language_servers.items()],
    threading the local dict [sessions]. *)
Fixpoint build_sessions (items : list (string * Spec))
    (sessions : gmap string nat) : Method (gmap string nat) :=
  match items with
  | [] => ret sessions
  | (language_server, sp) :: rest =>
      let* session := LanguageServerSession_new language_server sp in
      build_sessions rest (<[language_server := session]> sessions)
  end.

Definition init_sessions : Method unit :=
  let* m := get in
  let* sessions := build_sessions (map_to_list (language_servers m)) ∅ in
  λ m, (Returned tt, set_sessions sessions m, []).

(** ** Listeners *)

Definition registered (scope : MessageScope) (m : LanguageServerManager) :
    list string :=
  match scope with
  | ALL => registered_all m
  | CLIENT => registered_client m
  | SERVER => registered_server m
  end.

(** Modelled from the spec: [register_message_listener] is a class method
    of [LanguageServerManagerAPI] in [types.py]. The spec's [register(scope,
    callable)] is append-only: the callable goes to the end of the sequence
    of its scope. *)
Definition register_message_listener (scope : MessageScope)
    (listener : string) : Method unit :=
  do (λ m, (Returned tt,
            match scope with
            | ALL => set_registered_all (registered_all m ++ [listener]) m
            | CLIENT => set_registered_client (registered_client m ++ [listener]) m
            | SERVER => set_registered_server (registered_server m ++ [listener]) m
            end, [])) then
  emit (ListenerRegistered scope listener).

(** Modelled from the spec: [wait_for_listeners] is a method of
    [LanguageServerManagerAPI] in [types.py]. The spec's [dispatch(scope,
    message, serverKey)] invokes, in registration order, every callable
    registered under [scope] and every callable registered under [ALL], and
    the caller is suspended until all of them have completed. *)
Definition wait_for_listeners (scope : MessageScope) (message : string)
    (language_server : string) : Method unit :=
  let* m := get in
  for_each (registered scope m ++ registered ALL m)
    (λ listener,
       do emit (ListenerCalled scope listener message language_server) then
       emit (ListenerDone scope listener message language_server)).

(** The traitlets list of a scope, which [init_listeners] appends to. *)
Definition configured_listeners (scope : MessageScope)
    (m : LanguageServerManager) : list string :=
  match scope with
  | ALL => all_listeners m
  | CLIENT => client_listeners m
  | SERVER => server_listeners m
  end.

Definition append_listener (scope : MessageScope) (listener : string) :
    Method unit :=
  λ m, (Returned tt,
        match scope with
        | ALL => set_all_listeners (all_listeners m ++ [listener]) m
        | CLIENT => set_client_listeners (client_listeners m ++ [listener]) m
        | SERVER => set_server_listeners (server_listeners m ++ [listener]) m
        end, []).

Section listeners.
Context (E : Environment).

(** The body of the loop of [init_listeners] over the scopes. The group
    of the scope is read where the inner loop begins, outside the [try]:
    when the read raises, so does [init_listeners]. *)
Definition init_scope_listeners (scope : MessageScope) : Method unit :=
  let* entry_points := call (listener_entry_points E scope) in
  do for_each entry_points
       (λ ep, match ep.2 with
              | Returned listener => append_listener scope listener
              | Raised err =>
                  emit (Log LvlWarning
                          ("Failed to load entry point " ++ ep.1)%string)
              end) then
  let* m := get in
  for_each (configured_listeners scope m) (register_message_listener scope).

Definition init_listeners : Method unit :=
  for_each [ALL; CLIENT; SERVER] init_scope_listeners.

Definition init_language_servers : Method unit :=
  do (λ m, (Returned tt,
            set_language_servers_from_config (language_servers m) m, [])) then
  let* installed := _collect_language_servers E true in
  do (λ m, (Returned tt, set_language_servers installed m, [])) then
  let* known := _collect_language_servers E false in
  λ m, (Returned tt, set_all_language_servers known m, []).


End listeners.

(** ** Subscriptions *)

Definition subscribe (handler : Handler) : Method unit :=
  let* m := get in
  match sessions m !! language_server handler with
  | None =>
      emit (Log LvlError
              ("[" ++ language_server handler
                   ++ "] no session: handler subscription failed")%string)
  | Some session =>
      let* members := session_handlers session in
      assign_handlers session ({[handler]} ∪ members)
  end.

Definition unsubscribe (handler : Handler) : Method unit :=
  let* m := get in
  match sessions m !! language_server handler with
  | None =>
      emit (Log LvlError
              ("[" ++ language_server handler
                   ++ "] no session: handler unsubscription failed")%string)
  | Some session =>
      let* members := session_handlers session in
      assign_handlers session (filter (λ h, h ≠ handler) members)
  end.

(** ** Messages *)

(** [session.write(message)]: the session is an outside collaborator, the
    call is recorded. *)
Definition session_write (session : nat) (message : string) : Method unit :=
  emit (SessionWrite session message).

(** [handler.write_message(message)]. *)
Definition write_message (handler : Handler) (message : string) : Method unit :=
  if ws_open handler
  then emit (HandlerWrite handler message)
  else raise "WebSocketClosedError".

Definition on_client_message (message : string) (handler : Handler) :
    Method unit :=
  do wait_for_listeners CLIENT message (language_server handler) then
  let* m := get in
  match sessions m !! language_server handler with
  | None =>
      emit (Log LvlError
              ("[" ++ language_server handler
                   ++ "] no session: client message dropped")%string)
  | Some session => session_write session message
  end.

(** A Python set iterator: the set object it walks, the size the object
    had when the iterator was made, and the position reached. *)
Record SetIterator := {
  it_set : nat;
  it_used : nat;
  it_pos : nat;
}.

Definition set_iter (ref : nat) : Method SetIterator :=
  let* members := the_set ref in
  ret {| it_set := ref; it_used := size members; it_pos := 0 |}.

(** [next(it)]: reads the set object as it is now; [None] is
    [StopIteration]. *)
Definition set_iter_next (it : SetIterator) : Method (option Handler) :=
  let* members := the_set (it_set it) in
  if decide (size members = it_used it)
  then ret (elements members !! it_pos it)
  else raise "RuntimeError: Set changed size during iteration".

Definition advance (it : SetIterator) : SetIterator :=
  {| it_set := it_set it; it_used := it_used it; it_pos := S (it_pos it) |}.

(** [for handler in <set>: body], with [turns] the number of members left
    to visit. [meanwhile i] is what other parties do to the manager before
    the [i]-th call of [next]; it is [ret tt] when the loop runs alone. *)
Fixpoint for_set (turns : nat) (it : SetIterator)
    (meanwhile : nat → Method unit) (body : Handler → Method unit) :
    Method unit :=
  do meanwhile (it_pos it) then
  let* item := set_iter_next it in
  match item with
  | None => ret tt
  | Some handler =>
      do body handler then
      match turns with
      | 0 => ret tt
      | S turns' => for_set turns' (advance it) meanwhile body
      end
  end.

(** [on_server_message], with what other parties do while the handlers
    are iterated. *)
Definition on_server_message_meanwhile (meanwhile : nat → Method unit)
    (message : string) (session : nat) : Method unit :=
  let* m := get in
  let language_servers :=
    (filter (λ kv, kv.2 = session) (map_to_list (sessions m))).*1 in
  do for_each language_servers
       (λ language_server, wait_for_listeners SERVER message language_server) then
  let* s := the_session session in
  let* it := set_iter (handlers s) in
  for_set (it_used it) it meanwhile (λ handler, write_message handler message).

Definition on_server_message (message : string) (session : nat) : Method unit :=
  on_server_message_meanwhile (λ _, ret tt) message session.

(** What another party may do to the subscriptions while a broadcast is
    under way. *)
Inductive SubscriptionCall :=
| CallSubscribe (handler : Handler)
| CallUnsubscribe (handler : Handler).

Definition run_call (c : SubscriptionCall) : Method unit :=
  match c with
  | CallSubscribe handler => subscribe handler
  | CallUnsubscribe handler => unsubscribe handler
  end.

(** A call made by another party: its effects on the manager stay, its
    outcome is that party's business. *)
Definition aside (c : Method unit) : Method unit :=
  λ m, (Returned tt, (c m).1.2, (c m).2).

(** The calls that reach the manager before the [i]-th call of [next]. *)
Definition concurrent_calls (calls : nat → list SubscriptionCall) :
    nat → Method unit :=
  λ i, for_each (calls i) (λ c, aside (run_call c)).

(** ** Notions the properties are stated with *)

(** The events of one dispatch to a list of listeners. *)
Definition listener_events (scope : MessageScope) (message key : string)
    (listeners : list string) : list Event :=
  listeners ≫= λ listener,
    [ListenerCalled scope listener message key;
     ListenerDone scope listener message key].

(** The handlers a trace wrote [message] to, in order. *)
Definition delivered (message : string) (t : list Event) : list Handler :=
  omap (λ e, match e with
             | HandlerWrite handler message' =>
                 if decide (message' = message) then Some handler else None
             | _ => None
             end) t.

(** The handlers of a list up to the first closed one. *)
Fixpoint open_prefix (hs : list Handler) : list Handler :=
  match hs with
  | [] => []
  | h :: rest => if ws_open h then h :: open_prefix rest else []
  end.

Definition is_session_write (e : Event) : bool :=
  match e with SessionWrite _ _ => true | _ => false end.



(** The set objects of [m] are still there, unchanged, in [m']. *)
Definition sets_kept (m m' : LanguageServerManager) : Prop :=
  ∀ ref members, set_objs m !! ref = Some members →
                 set_objs m' !! ref = Some members.

(** Whether the pass with [only_installed] leaves the entry point out,
    as the guard of [_autodetect_language_servers] decides it. *)
Definition skipped_when_only_installed (m : LanguageServerManager)
    (ep : EntryPoint) : bool :=
  match load ep with
  | Returned spec_finder =>
      match is_installed spec_finder with
      | Some check =>
          match check m with Returned true => false | _ => true end
      | None => false
      end
  | Raised _ => false
  end.




(** ** Concrete managers and environments *)

Definition pyls_spec : Spec := {| argv := Some ["pyls"]; other_keys := [] |}.
Definition pylsp_spec : Spec := {| argv := Some ["pylsp"]; other_keys := [] |}.
Definition rls_spec : Spec := {| argv := Some ["rls"]; other_keys := [] |}.
Definition opt_out_spec : Spec := {| argv := Some []; other_keys := [] |}.

(** A manager before [initialize], with nothing configured. *)
Definition bare_manager : LanguageServerManager :=
  {| conf_d_language_servers := ∅;
     language_servers := ∅;
     autodetect := true;
     sessions := ∅;
     all_listeners := [];
     server_listeners := [];
     client_listeners := [];
     all_language_servers := ∅;
     _language_servers_from_config := ∅;
     registered_all := [];
     registered_client := [];
     registered_server := [];
     session_objs := ∅;
     set_objs := ∅ |}.

(** A manager with one listener configured per scope. *)
Definition listening_manager : LanguageServerManager :=
  set_client_listeners ["on_client"]
    (set_server_listeners ["on_server"]
       (set_all_listeners ["on_all"] bare_manager)).

(** A manager with one session, for the key [py], whose handlers are
    [members], and one listener registered per scope. *)
Definition serving_manager (members : gset Handler) : LanguageServerManager :=
  {| conf_d_language_servers := ∅;
     language_servers := {["py" := pyls_spec]};
     autodetect := true;
     sessions := {["py" := 0]};
     all_listeners := ["on_all"];
     server_listeners := ["on_server"];
     client_listeners := ["on_client"];
     all_language_servers := {["py" := pyls_spec]};
     _language_servers_from_config := ∅;
     registered_all := ["on_all"];
     registered_client := ["on_client"];
     registered_server := ["on_server"];
     session_objs :=
       {[0 := {| session_language_server := "py"; spec := pyls_spec;
                 handlers := 0 |}]};
     set_objs := {[0 := members]} |}.

Definition py_handler (id : nat) (open : bool) : Handler :=
  {| handler_id := id; language_server := "py"; ws_open := open |}.
Definition r_handler (id : nat) : Handler :=
  {| handler_id := id; language_server := "r"; ws_open := true |}.

(** A spec finder that answers the same whatever the manager. *)
Definition constant_finder (installed : option bool)
    (specs : list (string * Spec)) : SpecFinder :=
  {| is_installed := (λ answer _, Returned answer) <$> installed;
     find_specs := λ _, Returned (Some specs) |}.

Definition environment_of (entry_points : list EntryPoint) : Environment :=
  {| spec_entry_points := Returned entry_points;
     listener_entry_points := λ _, Returned [];
     iter_errors := λ _, [] |}.

(** An installed finder and one that is not, both for the key [py]. *)
Definition shadowing_environment : Environment :=
  environment_of
    [ {| ep_name := "python-language-server";
         load := Returned (constant_finder (Some true) [("py", pyls_spec)]) |};
      {| ep_name := "python-lsp-server";
         load := Returned (constant_finder (Some false) [("py", pylsp_spec)]) |} ].


(** An installed finder and one that is not, for different keys. *)
Definition disjoint_environment : Environment :=
  environment_of
    [ {| ep_name := "python-language-server";
         load := Returned (constant_finder (Some true) [("py", pyls_spec)]) |};
      {| ep_name := "rls";
         load := Returned (constant_finder (Some false) [("r", rls_spec)]) |} ].

(** The static configuration opts [py] out, the dynamic one sets it. *)
Definition overridden_opt_out : LanguageServerManager :=
  set_language_servers_from_config {["py" := opt_out_spec]}
    {| conf_d_language_servers := {["py" := pyls_spec]};
       language_servers := ∅;
       autodetect := true;
       sessions := ∅;
       all_listeners := [];
       server_listeners := [];
       client_listeners := [];
       all_language_servers := ∅;
       _language_servers_from_config := ∅;
       registered_all := [];
       registered_client := [];
       registered_server := [];
       session_objs := ∅;
       set_objs := ∅ |}.

(** The dynamic configuration opts [py] out. *)
Definition dynamic_opt_out : LanguageServerManager :=
  {| conf_d_language_servers := {["py" := opt_out_spec]};
     language_servers := ∅;
     autodetect := true;
     sessions := ∅;
     all_listeners := [];
     server_listeners := [];
     client_listeners := [];
     all_language_servers := ∅;
     _language_servers_from_config := ∅;
     registered_all := [];
     registered_client := [];
     registered_server := [];
     session_objs := ∅;
     set_objs := ∅ |}.

(** The manager once [session.handlers] is rebound to a new set object
    holding [members]. *)
Definition rebound (session : nat) (s : LanguageServerSession)
    (members : gset Handler) (m : LanguageServerManager) :
    LanguageServerManager :=
  let ref := fresh (dom (set_objs m)) in
  set_session_objs
    (<[session := {| session_language_server := session_language_server s;
                     spec := spec s; handlers := ref |}]> (session_objs m))
    (set_set_objs (<[ref := members]> (set_objs m)) m).



(** ** Properties as first stated *)

(** A spec without [argv] in any of the three sources keeps its key out
    of the resolved mapping. *)
Definition opt_out_in_any_source (E : Environment)
    (m : LanguageServerManager) (only_installed : bool) : Prop :=
  ∀ k s,
    conf_d_language_servers m !! k = Some s
    ∨ _language_servers_from_config m !! k = Some s
    ∨ (autodetect m = true
       ∧ (k, s) ∈ (_autodetect_language_servers E m only_installed).2) →
    truthy_argv s = false →
    ∀ resolved,
      outcome (_collect_language_servers E only_installed m) = Returned resolved →
      resolved !! k = None.

(** Every subscribed handler whose own write succeeds gets the message,
    whatever happens to the other handlers. *)
Definition failures_isolated (message : string) (session : nat)
    (m : LanguageServerManager) : Prop :=
  ∀ members h,
    subscribers m session = Some members →
    h ∈ members →
    ws_open h = true →
    h ∈ delivered message (trace (on_server_message message session m)).

(** [subscribe] then [unsubscribe] gives back the subscriber set. *)
Definition round_trip (handler : Handler) (session : nat)
    (m : LanguageServerManager) : Prop :=
  ∀ members,
    sessions m !! language_server handler = Some session →
    subscribers m session = Some members →
    subscribers
      (state_after ((do subscribe handler then unsubscribe handler) m)) session
    = Some members.


(** Calls that reach the manager between the first and the second call of
    [next]: both handlers leave and a new one arrives. *)
Definition churn (i : nat) : list SubscriptionCall :=
  match i with
  | 1 => [CallUnsubscribe (py_handler 1 true);
          CallUnsubscribe (py_handler 2 true);
          CallSubscribe (py_handler 3 true)]
  | _ => []
  end.

(** ** The default of [conf_d_language_servers] *)

Section conf_d.
(** [APP_CONFIG_D_SECTIONS] is a constant of [constants.py];
    [ConfigManager.get] belongs to [jupyter_server] and gives, for a
    section name, the configuration read from the [conf.d] directories: per
    class name, per trait name, a value, of which only the one under
    ["language_servers"] is read here; [class_name] is
    [self.__class__.__name__]. *)
Context (APP_CONFIG_D_SECTIONS : list string).
Context (ConfigManager_get :
           string → gmap string (gmap string (gmap string Spec))).
Context (class_name : string).

(** What one section gives: [manager.get(...).get(class_name, {})
    .get("language_servers", {})]. *)
Definition section_language_servers (app : string) : gmap string Spec :=
  default ∅
    (default ∅ (ConfigManager_get ("jupyter" ++ app ++ "config")%string
                  !! class_name)
       !! "language_servers").

Definition _default_conf_d_language_servers : gmap string Spec :=
  foldl (λ language_servers app,
           dict_update language_servers (section_language_servers app))
        ∅ APP_CONFIG_D_SECTIONS.

End conf_d.

(** ** Further notions the properties are stated with *)

(** The environment with other spec entry points. *)
Definition with_entry_points (E : Environment)
    (entry_points : list EntryPoint) : Environment :=
  {| spec_entry_points := Returned entry_points;
     listener_entry_points := listener_entry_points E;
     iter_errors := iter_errors E |}.

(** The three ways an entry point fails whatever [only_installed] is:
    its load raises, its spec finder raises, or what the finder returns
    does not validate. *)
Definition entry_point_fails (E : Environment) (m : LanguageServerManager)
    (ep : EntryPoint) : Prop :=
  match load ep with
  | Raised _ => True
  | Returned spec_finder =>
      match find_specs spec_finder m with
      | Raised _ => True
      | Returned found => iter_errors E (default [] found) ≠ []
      end
  end.

(** The listeners that the entry points of a scope load, and the warnings
    for those that do not load. *)
Definition loaded_listeners (eps : list (string * attempt string)) :
    list string :=
  omap (λ ep, match ep.2 with
              | Returned listener => Some listener
              | Raised _ => None
              end) eps.

Definition load_warnings (eps : list (string * attempt string)) :
    list Event :=
  omap (λ ep, match ep.2 with
              | Returned _ => None
              | Raised _ =>
                  Some (Log LvlWarning
                          ("Failed to load entry point " ++ ep.1)%string)
              end) eps.

(** What a method leaves as it was. *)
Definition resolution_kept (m m' : LanguageServerManager) : Prop :=
  conf_d_language_servers m' = conf_d_language_servers m
  ∧ language_servers m' = language_servers m
  ∧ autodetect m' = autodetect m
  ∧ all_language_servers m' = all_language_servers m
  ∧ _language_servers_from_config m' = _language_servers_from_config m.

Definition listeners_kept (m m' : LanguageServerManager) : Prop :=
  all_listeners m' = all_listeners m
  ∧ server_listeners m' = server_listeners m
  ∧ client_listeners m' = client_listeners m
  ∧ registered_all m' = registered_all m
  ∧ registered_client m' = registered_client m
  ∧ registered_server m' = registered_server m.

Definition subscriptions_kept (m m' : LanguageServerManager) : Prop :=
  sessions m' = sessions m
  ∧ session_objs m' = session_objs m
  ∧ set_objs m' = set_objs m.

(** The session objects of [m] are still there, unchanged, in [m']. *)
Definition session_objs_kept (m m' : LanguageServerManager) : Prop :=
  ∀ ref s, session_objs m !! ref = Some s → session_objs m' !! ref = Some s.

(** The manager once [LanguageServerSession(...)] has made a session for
    [key] with spec [sp]. *)
Definition with_new_session (key : string) (sp : Spec)
    (m : LanguageServerManager) : LanguageServerManager :=
  set_session_objs
    (<[fresh (dom (session_objs m)) :=
         {| session_language_server := key; spec := sp;
            handlers := fresh (dom (set_objs m)) |}]> (session_objs m))
    (set_set_objs (<[fresh (dom (set_objs m)) := ∅]> (set_objs m)) m).

(** The keys of the sessions a trace creates, in order. *)
Definition created_keys (t : list Event) : list string :=
  omap (λ e, match e with SessionCreated key _ => Some key | _ => None end) t.

(** ** Further concrete managers and environments *)

(** The group of spec entry points cannot be read. *)
Definition unreadable_environment : Environment :=
  {| spec_entry_points := Raised "OSError";
     listener_entry_points := λ _, Returned [];
     iter_errors := λ _, [] |}.

(** The listener groups of an environment in which all can be read: the
    group of ALL has one listener that loads and one that does not. *)
Definition example_listener_groups (scope : MessageScope) :
    list (string * attempt string) :=
  match scope with
  | ALL => [("loaded", Returned "on_loaded"); ("broken", Raised "ImportError")]
  | _ => []
  end.

Definition loading_listeners : Environment :=
  {| spec_entry_points :=
       Returned
         [ {| ep_name := "python-language-server";
              load := Returned (constant_finder (Some true)
                                  [("py", pyls_spec)]) |} ];
     listener_entry_points := λ scope, Returned (example_listener_groups scope);
     iter_errors := λ _, [] |}.

(** The same, but the group of CLIENT cannot be read. *)
Definition unreadable_client_listeners : Environment :=
  {| spec_entry_points :=
       Returned
         [ {| ep_name := "python-language-server";
              load := Returned (constant_finder (Some true)
                                  [("py", pyls_spec)]) |} ];
     listener_entry_points :=
       λ scope, match scope with
                | CLIENT => Raised "OSError"
                | _ => Returned (example_listener_groups scope)
                end;
     iter_errors := λ _, [] |}.

Definition pyls_entry_point : EntryPoint :=
  {| ep_name := "python-language-server";
     load := Returned (constant_finder (Some true) [("py", pyls_spec)]) |}.

Definition rls_entry_point : EntryPoint :=
  {| ep_name := "rls";
     load := Returned (constant_finder None [("r", rls_spec)]) |}.

(** An entry point whose load raises. *)
Definition broken_entry_point : EntryPoint :=
  {| ep_name := "broken"; load := Raised "ImportError" |}.

(** A manager with a session for [py] and one for [r]; the handlers of
    the first are [members], the second has none. *)
Definition two_sessions_manager (members : gset Handler) :
    LanguageServerManager :=
  {| conf_d_language_servers := ∅;
     language_servers := {["py" := pyls_spec; "r" := rls_spec]};
     autodetect := true;
     sessions := {["py" := 0; "r" := 1]};
     all_listeners := [];
     server_listeners := [];
     client_listeners := [];
     all_language_servers := {["py" := pyls_spec; "r" := rls_spec]};
     _language_servers_from_config := ∅;
     registered_all := [];
     registered_client := [];
     registered_server := [];
     session_objs :=
       {[0 := {| session_language_server := "py"; spec := pyls_spec;
                 handlers := 0 |};
         1 := {| session_language_server := "r"; spec := rls_spec;
                 handlers := 1 |}]};
     set_objs := {[0 := members; 1 := ∅]} |}.

(** A manager whose table of sessions no longer has the session that
    [members] are subscribed to. *)
Definition orphaned_session_manager (members : gset Handler) :
    LanguageServerManager :=
  set_sessions ∅ (serving_manager members).

(** Three sections and a [conf.d] in which two of them configure the
    manager. *)
Definition example_sections : list string := ["_"; "_notebook_"; "_server_"].

Definition example_conf_d (name : string) :
    gmap string (gmap string (gmap string Spec)) :=
  if decide (name = "jupyter_notebook_config")
  then {["LanguageServerManager" :=
           {["language_servers" := {["py" := pyls_spec; "r" := rls_spec]}]}]}
  else if decide (name = "jupyter_server_config")
  then {["LanguageServerManager" :=
           {["language_servers" := {["py" := pylsp_spec]}]}]}
  else ∅.

(** * Properties *)

(** ** Dict updates *)

Section dict.
Context {V : Type}.
Implicit Types (d : gmap string V) (pairs : list (string * V)).

Lemma dict_update_lookup d other k :
  dict_update d other !! k =
    match other !! k with Some v => Some v | None => d !! k end.
Proof.
  unfold dict_update. rewrite lookup_union.
  destruct (other !! k), (d !! k); done.
Qed.

Lemma dict_update_items_nil d : dict_update_items d [] = d.
Proof. done. Qed.

Lemma dict_update_items_snoc d pairs k v :
  dict_update_items d (pairs ++ [(k, v)]) = <[k := v]> (dict_update_items d pairs).
Proof. unfold dict_update_items. by rewrite foldl_app. Qed.

Lemma dict_update_items_app d l1 l2 :
  dict_update_items d (l1 ++ l2) = dict_update_items (dict_update_items d l1) l2.
Proof. unfold dict_update_items. apply foldl_app. Qed.

Lemma dict_update_items_lookup d pairs k :
  dict_update_items d pairs !! k =
    match dict_update_items ∅ pairs !! k with
    | Some v => Some v
    | None => d !! k
    end.
Proof.
  induction pairs as [|[k' v] pairs IH] using rev_ind.
  - unfold dict_update_items; simpl. by rewrite lookup_empty.
  - rewrite !dict_update_items_snoc.
    destruct (decide (k' = k)) as [->|Hne].
    + by rewrite !lookup_insert_eq.
    + by rewrite !lookup_insert_ne.
Qed.

Lemma dict_update_items_is_Some pairs k :
  is_Some (dict_update_items ∅ pairs !! k) ↔ k ∈ pairs.*1.
Proof.
  induction pairs as [|[k' v] pairs IH] using rev_ind.
  - unfold dict_update_items; simpl. rewrite lookup_empty.
    split; [by intros [? ?]|]. by intros ?%elem_of_nil.
  - rewrite dict_update_items_snoc, fmap_app, elem_of_app. simpl.
    rewrite list_elem_of_singleton.
    destruct (decide (k' = k)) as [->|Hne].
    + rewrite lookup_insert_eq. split; [by right|by eexists].
    + rewrite lookup_insert_ne by done. rewrite IH.
      split; [by left|]. by intros [?|?].
Qed.

Lemma dict_update_items_None pairs k :
  dict_update_items ∅ pairs !! k = None ↔ k ∉ pairs.*1.
Proof. rewrite <- dict_update_items_is_Some, eq_None_not_Some. done. Qed.

Lemma dict_update_items_last (before after : list (string * V)) k v :
  k ∉ after.*1 →
  dict_update_items ∅ (before ++ (k, v) :: after) !! k = Some v.
Proof.
  intros Hafter.
  rewrite dict_update_items_app, dict_update_items_lookup.
  change ((k, v) :: after) with ([(k, v)] ++ after).
  rewrite dict_update_items_app, (dict_update_items_lookup _ after).
  apply dict_update_items_None in Hafter. rewrite Hafter.
  change (dict_update_items ∅ [(k, v)]) with (<[k := v]> (∅ : gmap string V)).
  by rewrite lookup_insert_eq.
Qed.

End dict.

Section resolve_facts.
Context (E : Environment).
Implicit Types (m : LanguageServerManager) (k : string) (s : Spec).

Lemma collect_returns m only_installed :
  outcome (_collect_language_servers E only_installed m) =
    Returned (coalesce (merged_language_servers E m only_installed))
  ∧ state_after (_collect_language_servers E only_installed m) = m.
Proof.
  unfold _collect_language_servers, bind, get, emit_all, ret, outcome, state_after.
  by destruct (autodetect m).
Qed.

Lemma coalesce_lookup (servers : gmap string Spec) k :
  coalesce servers !! k =
    match servers !! k with
    | Some s => if truthy_argv s then Some s else None
    | None => None
    end.
Proof.
  unfold coalesce. destruct (servers !! k) as [s|] eqn:Hk.
  - destruct (truthy_argv s) eqn:Ht.
    + apply map_lookup_filter_Some. done.
    + apply map_lookup_filter_None. right. intros s' Hs'. simpl.
      rewrite Hk in Hs'. injection Hs' as <-. by rewrite Ht.
  - apply map_lookup_filter_None. by left.
Qed.

Lemma merged_lookup m only_installed k :
  merged_language_servers E m only_installed !! k =
    match conf_d_language_servers m !! k with
    | Some dynamic => Some dynamic
    | None =>
        match _language_servers_from_config m !! k with
        | Some static => Some static
        | None => discovered_language_servers E m only_installed !! k
        end
    end.
Proof.
  unfold merged_language_servers, language_servers_from_config.
  rewrite !dict_update_lookup.
  by destruct (conf_d_language_servers m !! k),
              (_language_servers_from_config m !! k).
Qed.

(** C1: the mapping that [_collect_language_servers] builds before it
    drops the specs without [argv] has, for every key, the entry of the
    dynamic ([conf.d]) configuration when there is one, else the entry of
    the static configuration, else the discovered entry; the method
    returns that mapping coalesced. *)
Theorem merged_precedence m only_installed k :
  outcome (_collect_language_servers E only_installed m) =
    Returned (coalesce (merged_language_servers E m only_installed))
  ∧ merged_language_servers E m only_installed !! k =
      match conf_d_language_servers m !! k with
      | Some dynamic => Some dynamic
      | None =>
          match _language_servers_from_config m !! k with
          | Some static => Some static
          | None => discovered_language_servers E m only_installed !! k
          end
      end.
Proof. split; [apply collect_returns|apply merged_lookup]. Qed.

(** C2, as amended: a key whose winning entry (the dynamic one, else the
    static one, else the discovered one) has an empty or absent [argv]
    is not in the mapping that [_collect_language_servers] returns,
    whichever of the three sources the winning entry comes from. *)
Theorem opt_out_of_winning_entry m only_installed k s :
  conf_d_language_servers m !! k = Some s
  ∨ (conf_d_language_servers m !! k = None
     ∧ _language_servers_from_config m !! k = Some s)
  ∨ (conf_d_language_servers m !! k = None
     ∧ _language_servers_from_config m !! k = None
     ∧ discovered_language_servers E m only_installed !! k = Some s) →
  truthy_argv s = false →
  ∃ resolved,
    outcome (_collect_language_servers E only_installed m) = Returned resolved
    ∧ resolved !! k = None.
Proof.
  intros Hsrc Hfalsy. eexists. split; [apply collect_returns|].
  rewrite coalesce_lookup.
  rewrite merged_lookup.
  destruct Hsrc as [-> | [[-> ->] | (-> & -> & ->)]]; by rewrite Hfalsy.
Qed.
End resolve_facts.


Section submap.
Context (E : Environment).
Implicit Types (m : LanguageServerManager) (k : string) (s : Spec).

Lemma collect_run m only_installed :
  _collect_language_servers E only_installed m =
    (Returned (coalesce (merged_language_servers E m only_installed)), m,
     if autodetect m
     then (_autodetect_language_servers E m only_installed).1 else []).
Proof.
  unfold _collect_language_servers, bind, get, emit_all, ret.
  destruct (autodetect m); simpl; by rewrite ?app_nil_r.
Qed.

Lemma skipped_yields_nothing m ep :
  skipped_when_only_installed m ep = true →
  (entry_point_specs E m true ep).2 = [].
Proof.
  unfold skipped_when_only_installed, entry_point_specs.
  destruct (load ep) as [f|]; [|done].
  destruct (is_installed f) as [check|]; [|done].
  by destruct (check m) as [[]|].
Qed.

Lemma kept_yields_the_same m ep :
  skipped_when_only_installed m ep = false →
  entry_point_specs E m true ep = entry_point_specs E m false ep.
Proof.
  unfold skipped_when_only_installed, entry_point_specs.
  destruct (load ep) as [f|]; [|done].
  destruct (is_installed f) as [check|]; [|done].
  by destruct (check m) as [[]|].
Qed.


End submap.

Section submap3.
Context (E : Environment).
Implicit Types (m : LanguageServerManager) (k : string) (s : Spec).

Lemma init_language_servers_run m :
  let m1 := set_language_servers_from_config (language_servers m) m in
  let installed := coalesce (merged_language_servers E m1 true) in
  let m2 := set_language_servers installed m1 in
  let known := coalesce (merged_language_servers E m2 false) in
  init_language_servers E m =
    (Returned tt, set_all_language_servers known m2,
     (if autodetect m then (_autodetect_language_servers E m1 true).1 else [])
     ++ (if autodetect m then (_autodetect_language_servers E m2 false).1 else [])).
Proof.
  unfold init_language_servers, bind. simpl.
  rewrite !collect_run. simpl. by rewrite ?app_nil_r.
Qed.

End submap3.

(** ** Listener dispatch *)

Lemma for_each_emits {A} (items : list A) (body : A → Method unit)
    (events : A → list Event) m :
  (∀ x, body x m = (Returned tt, m, events x)) →
  for_each items body m = (Returned tt, m, items ≫= events).
Proof.
  intros Hbody. induction items as [|x items IH]; [reflexivity|].
  cbn [for_each]. unfold bind at 1. by rewrite Hbody, IH.
Qed.

Lemma wait_for_listeners_run scope message key m :
  wait_for_listeners scope message key m =
    (Returned tt, m,
     listener_events scope message key (registered scope m ++ registered ALL m)).
Proof.
  unfold wait_for_listeners, bind at 1, get.
  by rewrite (for_each_emits _ _
    (λ listener, [ListenerCalled scope listener message key;
                  ListenerDone scope listener message key])).
Qed.

Lemma listener_events_elem scope message key listeners listener :
  listener ∈ listeners →
  ListenerCalled scope listener message key
    ∈ listener_events scope message key listeners
  ∧ ListenerDone scope listener message key
    ∈ listener_events scope message key listeners.
Proof.
  intros Hin. unfold listener_events.
  split; apply list_elem_of_bind; exists listener; (split; [|done]); set_solver.
Qed.

Lemma listener_events_no_write scope message key listeners :
  Forall (λ e, is_session_write e = false)
    (listener_events scope message key listeners).
Proof.
  unfold listener_events. apply Forall_forall. intros e.
  rewrite list_elem_of_bind. intros (l & He & _).
  rewrite !elem_of_cons, elem_of_nil in He. by destruct He as [-> | [-> | []]].
Qed.

Lemma listener_events_delivered scope message key listeners message' :
  delivered message' (listener_events scope message key listeners) = [].
Proof. induction listeners as [|l listeners IH]; [done|]. simpl. apply IH. Qed.

(** ** The object store *)

Lemma assign_handlers_run m session s members :
  session_objs m !! session = Some s →
  assign_handlers session members m =
    (Returned tt, rebound session s members m, []).
Proof.
  intros Hs. unfold assign_handlers, bind, the_session, new_set. simpl.
  by rewrite Hs.
Qed.

Lemma session_handlers_run m session s members :
  session_objs m !! session = Some s →
  set_objs m !! handlers s = Some members →
  session_handlers session m = (Returned members, m, []).
Proof.
  intros Hs Hset. unfold session_handlers, bind, the_session, the_set.
  by rewrite Hs, Hset.
Qed.

Lemma subscribers_Some m session members :
  subscribers m session = Some members ↔
  ∃ s, session_objs m !! session = Some s
       ∧ set_objs m !! handlers s = Some members.
Proof.
  unfold subscribers. destruct (session_objs m !! session) as [s|]; simpl.
  - split; [by exists s|]. by intros (s' & [= <-] & ?).
  - split; [done|]. by intros (? & ? & ?).
Qed.

Lemma fresh_set_ref m : set_objs m !! fresh (dom (set_objs m)) = None.
Proof. apply not_elem_of_dom, is_fresh. Qed.

Lemma rebound_subscribers m session s members :
  subscribers (rebound session s members m) session = Some members.
Proof.
  unfold subscribers, rebound. simpl.
  rewrite lookup_insert_eq. simpl. by rewrite lookup_insert_eq.
Qed.

Lemma rebound_sessions m session s members :
  sessions (rebound session s members m) = sessions m.
Proof. done. Qed.

Lemma rebound_sets_kept m session s members :
  sets_kept m (rebound session s members m).
Proof.
  intros ref X Href. unfold rebound. simpl.
  rewrite lookup_insert_ne; [done|].
  intros <-. by rewrite fresh_set_ref in Href.
Qed.

Lemma sets_kept_refl m : sets_kept m m.
Proof. by intros ref X. Qed.

Lemma sets_kept_trans m1 m2 m3 :
  sets_kept m1 m2 → sets_kept m2 m3 → sets_kept m1 m3.
Proof. intros H12 H23 ref X Href. by apply H23, H12. Qed.

(** ** Subscriptions *)

Lemma subscribe_run m handler session members :
  sessions m !! language_server handler = Some session →
  subscribers m session = Some members →
  ∃ s, session_objs m !! session = Some s
       ∧ subscribe handler m =
           (Returned tt, rebound session s ({[handler]} ∪ members) m, []).
Proof.
  intros Hsession (s & Hs & Hset)%subscribers_Some. exists s. split; [done|].
  unfold subscribe, bind at 1, get. rewrite Hsession.
  unfold bind. rewrite (session_handlers_run m session s members Hs Hset).
  by rewrite (assign_handlers_run m session s _ Hs).
Qed.

Lemma unsubscribe_run m handler session members :
  sessions m !! language_server handler = Some session →
  subscribers m session = Some members →
  ∃ s, session_objs m !! session = Some s
       ∧ unsubscribe handler m =
           (Returned tt,
            rebound session s (filter (λ h, h ≠ handler) members) m, []).
Proof.
  intros Hsession (s & Hs & Hset)%subscribers_Some. exists s. split; [done|].
  unfold unsubscribe, bind at 1, get. rewrite Hsession.
  unfold bind. rewrite (session_handlers_run m session s members Hs Hset).
  by rewrite (assign_handlers_run m session s _ Hs).
Qed.

Lemma filter_other_handlers (members : gset Handler) handler :
  filter (λ h, h ≠ handler) ({[handler]} ∪ members) = members ∖ {[handler]}.
Proof. set_solver. Qed.

Lemma subscribe_unsubscribe_run m handler session members :
  sessions m !! language_server handler = Some session →
  subscribers m session = Some members →
  outcome ((do subscribe handler then unsubscribe handler) m) = Returned tt
  ∧ subscribers
      (state_after ((do subscribe handler then unsubscribe handler) m)) session
    = Some (members ∖ {[handler]}).
Proof.
  intros Hsession Hmembers.
  destruct (subscribe_run m handler session members Hsession Hmembers)
    as (s & Hs & Hsub).
  pose proof (rebound_subscribers m session s ({[handler]} ∪ members)) as Hmid.
  destruct (unsubscribe_run _ handler session _
              (eq_trans (f_equal (.!! _) (rebound_sessions m session s _)) Hsession)
              Hmid)
    as (s' & Hs' & Hunsub).
  unfold bind, outcome, state_after. rewrite Hsub, Hunsub. simpl.
  by rewrite rebound_subscribers, filter_other_handlers.
Qed.

(** C5, as amended: for a handler whose key has a live session,
    [subscribe] then [unsubscribe] returns and leaves the session with its
    former subscribers less the handler; that is the former set when the
    handler was not subscribed before. *)
Theorem subscribe_unsubscribe_removes m handler session members :
  sessions m !! language_server handler = Some session →
  subscribers m session = Some members →
  outcome ((do subscribe handler then unsubscribe handler) m) = Returned tt
  ∧ subscribers
      (state_after ((do subscribe handler then unsubscribe handler) m)) session
    = Some (members ∖ {[handler]})
  ∧ (handler ∉ members →
     subscribers
       (state_after ((do subscribe handler then unsubscribe handler) m)) session
     = Some members).
Proof.
  intros Hsession Hmembers.
  destruct (subscribe_unsubscribe_run m handler session members
              Hsession Hmembers) as [Hout Hnow].
  split_and!; [done..|]. intros Hnotin. rewrite Hnow. f_equal. set_solver.
Qed.

(** ** Client messages *)

Lemma on_client_message_run message handler m :
  on_client_message message handler m =
    (Returned tt, m,
     listener_events CLIENT message (language_server handler)
       (registered CLIENT m ++ registered ALL m)
     ++ [match sessions m !! language_server handler with
         | Some session => SessionWrite session message
         | None =>
             Log LvlError
               ("[" ++ language_server handler
                    ++ "] no session: client message dropped")%string
         end]).
Proof.
  unfold on_client_message, bind at 1. rewrite wait_for_listeners_run.
  unfold bind, get. simpl.
  by destruct (sessions m !! language_server handler).
Qed.

(** C3: when the handler's key has a live session, [on_client_message]
    returns with a trace that ends in the one [Session.write] of the
    message; before it, the trace has no write and has, for every listener
    registered under CLIENT or ALL, the call and the completion of that
    listener for the message. *)
Theorem listeners_complete_before_write message handler m session :
  sessions m !! language_server handler = Some session →
  ∃ before,
    on_client_message message handler m =
      (Returned tt, m, before ++ [SessionWrite session message])
    ∧ Forall (λ e, is_session_write e = false) before
    ∧ ∀ listener,
        listener ∈ registered CLIENT m ∨ listener ∈ registered ALL m →
        ListenerCalled CLIENT listener message (language_server handler) ∈ before
        ∧ ListenerDone CLIENT listener message (language_server handler) ∈ before.
Proof.
  intros Hsession. eexists. rewrite on_client_message_run, Hsession.
  split_and!; [done|apply listener_events_no_write|].
  intros listener Hin. apply listener_events_elem, elem_of_app, Hin.
Qed.

(** C10: when the handler's key has no live session, [on_client_message]
    still dispatches to every listener registered under CLIENT or ALL and
    lets each complete; the session is looked up after that, as the error
    log that ends the trace shows, so the listeners have seen a message
    that is then dropped. *)
Theorem listeners_see_dropped_messages message handler m :
  sessions m !! language_server handler = None →
  ∃ before,
    on_client_message message handler m =
      (Returned tt, m,
       before ++ [Log LvlError
                    ("[" ++ language_server handler
                         ++ "] no session: client message dropped")%string])
    ∧ before = listener_events CLIENT message (language_server handler)
                 (registered CLIENT m ++ registered ALL m)
    ∧ ∀ listener,
        listener ∈ registered CLIENT m ∨ listener ∈ registered ALL m →
        ListenerCalled CLIENT listener message (language_server handler) ∈ before
        ∧ ListenerDone CLIENT listener message (language_server handler) ∈ before.
Proof.
  intros Hsession. eexists. rewrite on_client_message_run, Hsession.
  split_and!; [done..|].
  intros listener Hin. apply listener_events_elem, elem_of_app, Hin.
Qed.

(** C7: for a handler whose key has no live session, [subscribe] and
    [unsubscribe] return, log an error and leave the manager as it was;
    [on_client_message] returns, leaves the manager as it was, ends with
    the error log and calls no [Session.write]. *)
Theorem no_session_is_a_logged_no_op message handler m :
  sessions m !! language_server handler = None →
  subscribe handler m =
    (Returned tt, m,
     [Log LvlError ("[" ++ language_server handler
                        ++ "] no session: handler subscription failed")%string])
  ∧ unsubscribe handler m =
      (Returned tt, m,
       [Log LvlError ("[" ++ language_server handler
                          ++ "] no session: handler unsubscription failed")%string])
  ∧ outcome (on_client_message message handler m) = Returned tt
  ∧ state_after (on_client_message message handler m) = m
  ∧ last (trace (on_client_message message handler m)) =
      Some (Log LvlError ("[" ++ language_server handler
                              ++ "] no session: client message dropped")%string)
  ∧ Forall (λ e, is_session_write e = false)
      (trace (on_client_message message handler m)).
Proof.
  intros Hsession. split_and!.
  - unfold subscribe, bind, get. by rewrite Hsession.
  - unfold unsubscribe, bind, get. by rewrite Hsession.
  - by rewrite on_client_message_run.
  - by rewrite on_client_message_run.
  - rewrite on_client_message_run, Hsession. unfold trace. simpl.
    apply last_snoc.
  - rewrite on_client_message_run, Hsession. unfold trace. simpl.
    apply Forall_app. split; [apply listener_events_no_write|].
    by apply Forall_singleton.
Qed.

(** ** Broadcast *)

Lemma delivered_app message t1 t2 :
  delivered message (t1 ++ t2) = delivered message t1 ++ delivered message t2.
Proof. apply omap_app. Qed.

Lemma write_message_run handler message m :
  write_message handler message m =
    if ws_open handler
    then (Returned tt, m, [HandlerWrite handler message])
    else (Raised "WebSocketClosedError", m, []).
Proof. unfold write_message. by destruct (ws_open handler). Qed.

Section broadcast.
Context (meanwhile : nat → Method unit) (message : string).
Hypothesis meanwhile_quiet :
  ∀ i m, ∃ m' t, meanwhile i m = (Returned tt, m', t)
                 ∧ sets_kept m m' ∧ delivered message t = [].

Lemma set_iter_next_run m ref (members : gset Handler) p :
  set_objs m !! ref = Some members →
  set_iter_next {| it_set := ref; it_used := size members; it_pos := p |} m
  = (Returned (elements members !! p), m, []).
Proof.
  intros Href. unfold set_iter_next, bind, the_set. simpl. rewrite Href.
  by rewrite decide_True.
Qed.

Lemma for_set_run ref (members : gset Handler) turns :
  ∀ p m,
    set_objs m !! ref = Some members →
    p + turns = size members →
    ∃ m' t,
      for_set turns
        {| it_set := ref; it_used := size members; it_pos := p |}
        meanwhile (λ handler, write_message handler message) m
      = (if forallb ws_open (drop p (elements members))
         then Returned tt else Raised "WebSocketClosedError", m', t)
      ∧ delivered message t = open_prefix (drop p (elements members))
      ∧ sets_kept m m'.
Proof.
  induction turns as [|turns IH]; intros p m Href Hp.
  - cbn [for_set it_pos]. unfold bind at 1.
    destruct (meanwhile_quiet p m) as (m1 & t1 & -> & Hkept & Hquiet).
    unfold bind at 1.
    rewrite (set_iter_next_run m1 ref members p (Hkept _ _ Href)).
    rewrite (lookup_ge_None_2 (elements members) p)
      by (change (length (elements members)) with (size members); lia).
    rewrite drop_ge
      by (change (length (elements members)) with (size members); lia).
    exists m1, (t1 ++ []). simpl. by rewrite app_nil_r.
  - cbn [for_set it_pos]. unfold bind at 1.
    destruct (meanwhile_quiet p m) as (m1 & t1 & -> & Hkept & Hquiet).
    unfold bind at 1.
    rewrite (set_iter_next_run m1 ref members p (Hkept _ _ Href)).
    destruct (lookup_lt_is_Some_2 (elements members) p) as [h Hh].
    { change (length (elements members)) with (size members). lia. }
    rewrite Hh, (drop_S _ _ _ Hh). cbn [forallb open_prefix].
    unfold bind at 1. rewrite write_message_run.
    destruct (ws_open h) eqn:Hopen; cbn [andb].
    + unfold advance. cbn [it_pos it_set it_used].
      destruct (IH (S p) m1 (Hkept _ _ Href) ltac:(lia))
        as (m2 & t2 & -> & Hd & Hk).
      eexists _, _. split_and!; [done| |by eapply sets_kept_trans].
      rewrite !delivered_app, Hquiet, Hd. simpl. by rewrite decide_True.
    + eexists _, _. split_and!; [done| |done].
      by rewrite app_nil_r.
Qed.

Lemma on_server_message_meanwhile_run m session s members :
  session_objs m !! session = Some s →
  set_objs m !! handlers s = Some members →
  ∃ m' before t,
    on_server_message_meanwhile meanwhile message session m
    = (if forallb ws_open (elements members)
       then Returned tt else Raised "WebSocketClosedError",
       m', before ++ t)
    ∧ delivered message before = []
    ∧ delivered message t = open_prefix (elements members)
    ∧ sets_kept m m'.
Proof.
  intros Hs Hset. unfold on_server_message_meanwhile.
  unfold bind at 1, get. unfold bind at 1.
  rewrite (for_each_emits _ _
    (λ key, listener_events SERVER message key
              (registered SERVER m ++ registered ALL m)))
    by (intros key; apply wait_for_listeners_run).
  unfold bind at 1, the_session. rewrite Hs.
  unfold bind at 1, set_iter. unfold bind at 1, the_set. rewrite Hset.
  cbn [ret it_used].
  destruct (for_set_run (handlers s) members (size members) 0 m Hset eq_refl)
    as (m' & t & -> & Hd & Hk).
  rewrite drop_0 in *.
  exists m',
    ((filter (λ kv : string * nat, kv.2 = session)
        (map_to_list (sessions m))).*1
     ≫= λ key, listener_events SERVER message key
                 (registered SERVER m ++ registered ALL m)), t.
  split_and!; [done|..|done|done].
  induction (_.*1) as [|key keys IH]; [done|].
  simpl. by rewrite delivered_app, listener_events_delivered.
Qed.
End broadcast.

Lemma alone_is_quiet message :
  ∀ (i : nat) m, ∃ m' t, (λ _ : nat, ret tt) i m = (Returned tt, m', t)
                 ∧ sets_kept m m' ∧ delivered message t = [].
Proof. intros i m. exists m, []. split_and!; [done|apply sets_kept_refl|done]. Qed.

Lemma subscribe_effects handler message m :
  sets_kept m (subscribe handler m).1.2
  ∧ delivered message (subscribe handler m).2 = [].
Proof.
  unfold subscribe, session_handlers, bind, get, the_session.
  destruct (sessions m !! language_server handler) as [session|];
    [|split; [apply sets_kept_refl|reflexivity]].
  destruct (session_objs m !! session) as [s|] eqn:Hs;
    [|split; [apply sets_kept_refl|reflexivity]].
  unfold the_set.
  destruct (set_objs m !! handlers s) as [members|] eqn:Hset;
    [|split; [apply sets_kept_refl|reflexivity]].
  rewrite (assign_handlers_run m session s _ Hs).
  split; [apply rebound_sets_kept|reflexivity].
Qed.

Lemma unsubscribe_effects handler message m :
  sets_kept m (unsubscribe handler m).1.2
  ∧ delivered message (unsubscribe handler m).2 = [].
Proof.
  unfold unsubscribe, session_handlers, bind, get, the_session.
  destruct (sessions m !! language_server handler) as [session|];
    [|split; [apply sets_kept_refl|reflexivity]].
  destruct (session_objs m !! session) as [s|] eqn:Hs;
    [|split; [apply sets_kept_refl|reflexivity]].
  unfold the_set.
  destruct (set_objs m !! handlers s) as [members|] eqn:Hset;
    [|split; [apply sets_kept_refl|reflexivity]].
  rewrite (assign_handlers_run m session s _ Hs).
  split; [apply rebound_sets_kept|reflexivity].
Qed.

Lemma concurrent_calls_quiet calls message :
  ∀ i m, ∃ m' t, concurrent_calls calls i m = (Returned tt, m', t)
                 ∧ sets_kept m m' ∧ delivered message t = [].
Proof.
  intros i. unfold concurrent_calls.
  induction (calls i) as [|c cs IH]; intros m.
  - exists m, []. split_and!; [done|apply sets_kept_refl|done].
  - cbn [for_each]. unfold bind at 1. unfold aside at 1.
    destruct (IH (run_call c m).1.2) as (m' & t & -> & Hk & Hd).
    eexists _, _. split; [done|].
    assert (sets_kept m (run_call c m).1.2
            ∧ delivered message (run_call c m).2 = []) as [Hk1 Hd1].
    { destruct c; [apply subscribe_effects|apply unsubscribe_effects]. }
    split; [by eapply sets_kept_trans|].
    by rewrite delivered_app, Hd1, Hd.
Qed.


Lemma open_prefix_all hs :
  Forall (λ h, ws_open h = true) hs →
  open_prefix hs = hs ∧ forallb ws_open hs = true.
Proof.
  induction 1 as [|h hs Hh _ [IH1 IH2]]; [done|].
  simpl. by rewrite Hh, IH1, IH2.
Qed.

Lemma open_prefix_stops before failing after :
  Forall (λ h, ws_open h = true) before →
  ws_open failing = false →
  open_prefix (before ++ failing :: after) = before
  ∧ forallb ws_open (before ++ failing :: after) = false.
Proof.
  intros Hbefore Hfailing.
  induction Hbefore as [|h hs Hh _ [IH1 IH2]]; simpl.
  - by rewrite Hfailing.
  - by rewrite Hh, IH1, IH2.
Qed.

(** C4, as amended: when a subscribed handler's [write_message] raises,
    [on_server_message] raises too; the handlers iterated before it have
    the message, the handlers after it do not get it. *)
Theorem broadcast_stops_at_first_failure message session m members
    before failing after :
  subscribers m session = Some members →
  elements members = before ++ failing :: after →
  Forall (λ h, ws_open h = true) before →
  ws_open failing = false →
  outcome (on_server_message message session m) = Raised "WebSocketClosedError"
  ∧ delivered message (trace (on_server_message message session m)) = before
  ∧ ∀ h, h ∈ after →
         h ∉ delivered message (trace (on_server_message message session m)).
Proof.
  intros (s & Hs & Hset)%subscribers_Some Helements Hbefore Hfailing.
  destruct (on_server_message_meanwhile_run (λ _, ret tt) message
              (alone_is_quiet message) m session s members Hs Hset)
    as (m' & listened & written & Hrun & Hquiet & Hwritten & _).
  unfold on_server_message. rewrite Hrun. unfold outcome, trace. simpl.
  rewrite delivered_app, Hquiet, Hwritten, Helements.
  destruct (open_prefix_stops before failing after Hbefore Hfailing) as [-> ->].
  split_and!; [done..|]. simpl. intros h Hafter Hh.
  pose proof (NoDup_elements members) as Hnodup.
  rewrite Helements in Hnodup.
  apply NoDup_app in Hnodup as (_ & Hdisjoint & _).
  apply (Hdisjoint h Hh). by right.
Qed.

(** C9: whatever [subscribe] and [unsubscribe] calls reach the manager
    while [on_server_message] iterates the handlers, the broadcast does
    what it does when it runs alone on the set of subscribers it started
    with; when their writes succeed, the message goes to exactly the
    members of that set, each once. *)
Theorem broadcast_reaches_the_snapshot calls message session m members :
  subscribers m session = Some members →
  outcome (on_server_message_meanwhile (concurrent_calls calls)
             message session m)
  = outcome (on_server_message message session m)
  ∧ delivered message
      (trace (on_server_message_meanwhile (concurrent_calls calls)
                message session m))
    = open_prefix (elements members)
  ∧ delivered message (trace (on_server_message message session m))
    = open_prefix (elements members)
  ∧ ((∀ h, h ∈ members → ws_open h = true) →
     outcome (on_server_message_meanwhile (concurrent_calls calls)
                message session m) = Returned tt
     ∧ delivered message
         (trace (on_server_message_meanwhile (concurrent_calls calls)
                   message session m)) = elements members
     ∧ ∀ h, h ∈ delivered message
                  (trace (on_server_message_meanwhile (concurrent_calls calls)
                            message session m))
            ↔ h ∈ members).
Proof.
  intros (s & Hs & Hset)%subscribers_Some.
  destruct (on_server_message_meanwhile_run (concurrent_calls calls) message
              (concurrent_calls_quiet calls message) m session s members Hs Hset)
    as (m' & listened & written & Hrun & Hquiet & Hwritten & _).
  destruct (on_server_message_meanwhile_run (λ _, ret tt) message
              (alone_is_quiet message) m session s members Hs Hset)
    as (m0 & listened0 & written0 & Hrun0 & Hquiet0 & Hwritten0 & _).
  unfold on_server_message. rewrite Hrun, Hrun0. unfold outcome, trace. simpl.
  rewrite !delivered_app, Hquiet, Hwritten, Hquiet0, Hwritten0.
  split_and!; [done..|]. intros Hopen.
  destruct (open_prefix_all (elements members)) as [-> ->].
  { apply Forall_forall. intros h Hh. by apply Hopen, elem_of_elements. }
  split_and!; [done..|]. intros h. simpl. apply elem_of_elements.
Qed.

(** ** Initialization *)

Section returns.
Context (P : Event → Prop).





End returns.



Section emits.
Context (P : Event → Prop).




End emits.







(** ** Concrete runs *)




(** C2, counterexample: the static configuration opts [py] out with an
    empty [argv], the dynamic configuration sets [py], and the resolved
    mapping has [py]. *)
Lemma opt_out_overridden :
  ¬ opt_out_in_any_source (environment_of []) overridden_opt_out true.
Proof.
  intros Hclaim.
  specialize (Hclaim "py" opt_out_spec (or_intror (or_introl eq_refl)) eq_refl
                _ (proj1 (collect_returns _ _ _))).
  by vm_compute in Hclaim.
Qed.

(** C2, witness: [py] is discovered and opted out in the dynamic
    configuration; the resolved mapping has no [py]. *)
Lemma dynamic_opt_out_wins :
  ∃ resolved,
    outcome (_collect_language_servers disjoint_environment true dynamic_opt_out)
      = Returned resolved
    ∧ resolved !! "py" = None.
Proof.
  apply (opt_out_of_winning_entry disjoint_environment dynamic_opt_out true
           "py" opt_out_spec).
  - left. reflexivity.
  - reflexivity.
Defined.



(** C3, witness: a client message for [py], which has a session. *)
Lemma write_follows_listeners :
  ∃ before,
    on_client_message "msg" (py_handler 1 true) (serving_manager ∅) =
      (Returned tt, serving_manager ∅, before ++ [SessionWrite 0 "msg"])
    ∧ Forall (λ e, is_session_write e = false) before
    ∧ ∀ listener,
        listener ∈ registered CLIENT (serving_manager ∅)
        ∨ listener ∈ registered ALL (serving_manager ∅) →
        ListenerCalled CLIENT listener "msg" "py" ∈ before
        ∧ ListenerDone CLIENT listener "msg" "py" ∈ before.
Proof.
  apply (listeners_complete_before_write "msg" (py_handler 1 true)
           (serving_manager ∅) 0).
  vm_compute. reflexivity.
Defined.

(** C10, witness: a client message for [r], which has no session. *)
Lemma dropped_message_is_listened_to :
  ∃ before,
    on_client_message "msg" (r_handler 1) (serving_manager ∅) =
      (Returned tt, serving_manager ∅,
       before ++ [Log LvlError "[r] no session: client message dropped"])
    ∧ before = listener_events CLIENT "msg" "r"
                 (registered CLIENT (serving_manager ∅)
                  ++ registered ALL (serving_manager ∅))
    ∧ ∀ listener,
        listener ∈ registered CLIENT (serving_manager ∅)
        ∨ listener ∈ registered ALL (serving_manager ∅) →
        ListenerCalled CLIENT listener "msg" "r" ∈ before
        ∧ ListenerDone CLIENT listener "msg" "r" ∈ before.
Proof.
  apply (listeners_see_dropped_messages "msg" (r_handler 1) (serving_manager ∅)).
  vm_compute. reflexivity.
Defined.

(** C7, witness: a handler bound to [r], which has no session. *)
Lemma unknown_key_is_a_no_op :
  subscribe (r_handler 1) (serving_manager ∅) =
    (Returned tt, serving_manager ∅,
     [Log LvlError "[r] no session: handler subscription failed"])
  ∧ unsubscribe (r_handler 1) (serving_manager ∅) =
      (Returned tt, serving_manager ∅,
       [Log LvlError "[r] no session: handler unsubscription failed"])
  ∧ outcome (on_client_message "msg" (r_handler 1) (serving_manager ∅))
    = Returned tt
  ∧ state_after (on_client_message "msg" (r_handler 1) (serving_manager ∅))
    = serving_manager ∅
  ∧ last (trace (on_client_message "msg" (r_handler 1) (serving_manager ∅))) =
      Some (Log LvlError "[r] no session: client message dropped")
  ∧ Forall (λ e, is_session_write e = false)
      (trace (on_client_message "msg" (r_handler 1) (serving_manager ∅))).
Proof.
  apply (no_session_is_a_logged_no_op "msg" (r_handler 1) (serving_manager ∅)).
  vm_compute. reflexivity.
Defined.

(** C5, counterexample: the handler is the one subscriber of its session;
    after [subscribe] and [unsubscribe] the session has none. *)
Lemma subscribed_handler_is_dropped :
  ¬ round_trip (py_handler 1 true) 0 (serving_manager {[py_handler 1 true]}).
Proof.
  intros Hclaim. specialize (Hclaim {[py_handler 1 true]} eq_refl eq_refl).
  destruct (subscribe_unsubscribe_run
              (serving_manager {[py_handler 1 true]}) (py_handler 1 true) 0
              {[py_handler 1 true]} eq_refl eq_refl) as [_ Hnow].
  rewrite Hnow in Hclaim. apply (inj Some) in Hclaim.
  assert (py_handler 1 true ∈ ({[py_handler 1 true]} : gset Handler)) as Hin
    by (by apply elem_of_singleton).
  rewrite <- Hclaim in Hin.
  apply elem_of_difference in Hin as [_ Hnot].
  apply Hnot. by apply elem_of_singleton.
Qed.

(** C5, witness: a handler that was not subscribed. *)
Lemma new_handler_round_trip :
  outcome ((do subscribe (py_handler 1 true)
            then unsubscribe (py_handler 1 true))
             (serving_manager {[py_handler 2 true]})) = Returned tt
  ∧ subscribers
      (state_after ((do subscribe (py_handler 1 true)
                     then unsubscribe (py_handler 1 true))
                      (serving_manager {[py_handler 2 true]}))) 0
    = Some ({[py_handler 2 true]} ∖ {[py_handler 1 true]})
  ∧ (py_handler 1 true ∉ ({[py_handler 2 true]} : gset Handler) →
     subscribers
       (state_after ((do subscribe (py_handler 1 true)
                      then unsubscribe (py_handler 1 true))
                       (serving_manager {[py_handler 2 true]}))) 0
     = Some {[py_handler 2 true]}).
Proof.
  apply (subscribe_unsubscribe_removes (serving_manager {[py_handler 2 true]})
           (py_handler 1 true) 0 {[py_handler 2 true]}).
  - vm_compute. reflexivity.
  - vm_compute. reflexivity.
Defined.

(** C4, counterexample: two subscribers, the first iterated has a closed
    socket; the second, whose socket is open, does not get the message. *)
Lemma closed_socket_starves_the_next :
  ¬ failures_isolated "msg" 0
      (serving_manager {[py_handler 2 false; py_handler 1 true]}).
Proof.
  intros Hclaim.
  specialize (Hclaim {[py_handler 2 false; py_handler 1 true]}
                (py_handler 1 true) eq_refl).
  assert (py_handler 1 true
            ∈ ({[py_handler 2 false; py_handler 1 true]} : gset Handler)) as Hin
    by set_solver.
  specialize (Hclaim Hin eq_refl).
  vm_compute in Hclaim. by apply elem_of_nil in Hclaim.
Qed.

(** C4, witness: the same two subscribers. *)
Lemma closed_socket_stops_broadcast :
  outcome (on_server_message "msg" 0
             (serving_manager {[py_handler 2 false; py_handler 1 true]}))
    = Raised "WebSocketClosedError"
  ∧ delivered "msg"
      (trace (on_server_message "msg" 0
                (serving_manager {[py_handler 2 false; py_handler 1 true]})))
    = []
  ∧ ∀ h, h ∈ [py_handler 1 true] →
         h ∉ delivered "msg"
               (trace (on_server_message "msg" 0
                         (serving_manager
                            {[py_handler 2 false; py_handler 1 true]}))).
Proof.
  apply (broadcast_stops_at_first_failure "msg" 0
           (serving_manager {[py_handler 2 false; py_handler 1 true]})
           {[py_handler 2 false; py_handler 1 true]}
           [] (py_handler 2 false) [py_handler 1 true]).
  - vm_compute. reflexivity.
  - vm_compute. reflexivity.
  - constructor.
  - reflexivity.
Defined.

(** C9, witness: both subscribers leave and a third arrives between the
    first and the second write; the two get the message, the third does
    not, and the session ends with the third as its one subscriber. *)
Lemma broadcast_under_churn :
  outcome (on_server_message_meanwhile (concurrent_calls churn) "msg" 0
             (serving_manager {[py_handler 1 true; py_handler 2 true]}))
    = Returned tt
  ∧ delivered "msg"
      (trace (on_server_message_meanwhile (concurrent_calls churn) "msg" 0
                (serving_manager {[py_handler 1 true; py_handler 2 true]})))
    = elements ({[py_handler 1 true; py_handler 2 true]} : gset Handler)
  ∧ subscribers
      (state_after
         (on_server_message_meanwhile (concurrent_calls churn) "msg" 0
            (serving_manager {[py_handler 1 true; py_handler 2 true]}))) 0
    = Some {[py_handler 3 true]}.
Proof.
  split_and!; [..|vm_compute; reflexivity].
  - apply (broadcast_reaches_the_snapshot churn "msg" 0
             (serving_manager {[py_handler 1 true; py_handler 2 true]})
             {[py_handler 1 true; py_handler 2 true]}).
    + vm_compute. reflexivity.
    + intros h Hh. apply elem_of_union in Hh as [Hh | Hh];
        apply elem_of_singleton in Hh; by subst.
  - apply (broadcast_reaches_the_snapshot churn "msg" 0
             (serving_manager {[py_handler 1 true; py_handler 2 true]})
             {[py_handler 1 true; py_handler 2 true]}).
    + vm_compute. reflexivity.
    + intros h Hh. apply elem_of_union in Hh as [Hh | Hh];
        apply elem_of_singleton in Hh; by subst.
Defined.


(** * Further properties *)

(** ** Resolution *)

Lemma dict_update_items_elem {V} (pairs : list (string * V)) k v :
  dict_update_items ∅ pairs !! k = Some v → (k, v) ∈ pairs.
Proof.
  induction pairs as [|[k' v'] pairs IH] using rev_ind.
  - by rewrite dict_update_items_nil, lookup_empty.
  - rewrite dict_update_items_snoc, elem_of_app, list_elem_of_singleton.
    destruct (decide (k' = k)) as [->|Hne].
    + rewrite lookup_insert_eq. intros [= ->]. by right.
    + rewrite lookup_insert_ne by done. intros Hk. left. by apply IH.
Qed.

(** X1: every entry of the mapping that [_collect_language_servers]
    returns has a non-empty [argv] and is, unaltered, an entry of the
    dynamic configuration, of the static configuration or a pair that the
    autodetection yielded (with [autodetect] on). *)
Theorem resolved_entries_come_from_sources E m only_installed resolved k s :
  outcome (_collect_language_servers E only_installed m) = Returned resolved →
  resolved !! k = Some s →
  truthy_argv s = true
  ∧ (conf_d_language_servers m !! k = Some s
     ∨ _language_servers_from_config m !! k = Some s
     ∨ (autodetect m = true
        ∧ (k, s) ∈ (_autodetect_language_servers E m only_installed).2)).
Proof.
  rewrite (proj1 (collect_returns E m only_installed)). intros [= <-].
  rewrite coalesce_lookup, merged_lookup.
  destruct (conf_d_language_servers m !! k) as [dynamic|].
  { destruct (truthy_argv dynamic) eqn:Ht; [|done].
    intros [= <-]. split; [done|by left]. }
  destruct (_language_servers_from_config m !! k) as [static|].
  { destruct (truthy_argv static) eqn:Ht; [|done].
    intros [= <-]. split; [done|]. right. by left. }
  unfold discovered_language_servers.
  destruct (autodetect m); [|by rewrite lookup_empty].
  destruct (dict_update_items ∅ _ !! k) as [found|] eqn:Hfound; [|done].
  destruct (truthy_argv found) eqn:Ht; [|done].
  intros [= <-]. split; [done|]. right. right.
  split; [done|]. by apply dict_update_items_elem.
Qed.

(** X2: with [autodetect] off, or when the group of entry points cannot
    be read, [_collect_language_servers] returns the configuration alone
    (static overlaid by dynamic, less the specs without [argv]), whatever
    [only_installed] is; it logs nothing in the first case and one
    exception record in the second, and leaves the manager as it was. *)
Theorem resolution_without_discovery E m only_installed :
  autodetect m = false ∨ (∃ err, spec_entry_points E = Raised err) →
  _collect_language_servers E only_installed m =
    (Returned (coalesce (language_servers_from_config m)), m,
     if autodetect m
     then [Log LvlException "Failed to load entry_points"] else []).
Proof.
  intros Hoff. rewrite collect_run.
  assert (discovered_language_servers E m only_installed = ∅) as Hnone.
  { unfold discovered_language_servers, _autodetect_language_servers.
    destruct Hoff as [-> | [err ->]]; [done|]. by destruct (autodetect m). }
  unfold merged_language_servers, dict_update. rewrite Hnone.
  rewrite (right_id_L ∅ (∪)).
  unfold _autodetect_language_servers.
  destruct Hoff as [-> | [err ->]]; [done|]. done.
Qed.

(** X3: later pairs override earlier ones: with [autodetect] on, the
    discovered spec of a key is the one of the last pair that the entry
    points yield for it. *)
Theorem last_yielded_pair_wins E m only_installed before after k s :
  autodetect m = true →
  (_autodetect_language_servers E m only_installed).2
    = before ++ (k, s) :: after →
  k ∉ after.*1 →
  discovered_language_servers E m only_installed !! k = Some s.
Proof.
  intros Hon Hyield Hafter. unfold discovered_language_servers.
  rewrite Hon, Hyield. by apply dict_update_items_last.
Qed.

Lemma entry_point_specs_sublist E m ep :
  (entry_point_specs E m true ep).2 `sublist_of` (entry_point_specs E m false ep).2.
Proof.
  destruct (skipped_when_only_installed m ep) eqn:Hskip.
  - rewrite (skipped_yields_nothing E m ep Hskip). apply sublist_nil_l.
  - by rewrite (kept_yields_the_same E m ep Hskip).
Qed.

(** X4: at one state of the manager, what the autodetection yields with
    [only_installed] is a sub-list, in the same order, of what it yields
    without. *)
Theorem installed_pairs_among_all E m :
  (_autodetect_language_servers E m true).2
    `sublist_of` (_autodetect_language_servers E m false).2.
Proof.
  unfold _autodetect_language_servers.
  destruct (spec_entry_points E) as [entry_points|]; [|done]. simpl.
  induction entry_points as [|ep entry_points IH]; [done|].
  simpl. apply sublist_app; [apply entry_point_specs_sublist|apply IH].
Qed.

(** X5: after [init_language_servers], [_language_servers_from_config]
    holds the configuration that [language_servers] held before, and for
    every key that the configuration defines (dynamic entry, else static
    entry), [language_servers] and [all_language_servers] both hold that
    entry when its [argv] is non-empty and both lack the key otherwise,
    whatever the entry points yield. *)
Theorem configured_servers_agree E m k s :
  conf_d_language_servers m !! k = Some s
  ∨ (conf_d_language_servers m !! k = None
     ∧ language_servers m !! k = Some s) →
  _language_servers_from_config (state_after (init_language_servers E m))
    = language_servers m
  ∧ language_servers (state_after (init_language_servers E m)) !! k
    = (if truthy_argv s then Some s else None)
  ∧ all_language_servers (state_after (init_language_servers E m)) !! k
    = (if truthy_argv s then Some s else None).
Proof.
  intros Hconfigured. rewrite init_language_servers_run.
  unfold state_after. simpl. split; [done|].
  rewrite !coalesce_lookup, !merged_lookup. simpl.
  by destruct Hconfigured as [-> | [-> ->]].
Qed.

Lemma failing_entry_point_yields_nothing E m only_installed ep :
  entry_point_fails E m ep →
  ∃ level text,
    entry_point_specs E m only_installed ep = ([Log level text], []).
Proof.
  unfold entry_point_fails, entry_point_specs, fetch_specs.
  destruct (load ep) as [spec_finder|]; [|by eexists _, _].
  intros Hfails.
  assert (∃ level text,
            match find_specs spec_finder m with
            | Returned found =>
                match iter_errors E (default [] found) with
                | [] => ([], default [] found)
                | _ :: _ =>
                    ([Log LvlWarning
                        ("Failed to validate commands from language server spec finder `"
                           ++ ep_name ep ++ "`")%string], [])
                end
            | Raised _ =>
                ([Log LvlWarning
                    ("Failed to fetch commands from language server spec finder `"
                       ++ ep_name ep ++ "`")%string], [])
            end = ([Log level text], [])) as Hfetch.
  { destruct (find_specs spec_finder m) as [found|]; [|by eexists _, _].
    destruct (iter_errors E (default [] found)); [done|by eexists _, _]. }
  destruct only_installed; [|done].
  destruct (is_installed spec_finder) as [check|]; [|done].
  destruct (check m) as [[]|]; [done|by eexists _, _..].
Qed.

(** X6: an entry point that fails (its load raises, its spec finder
    raises, or what it returns does not validate) costs one log record and
    nothing else: the pairs yielded, and so the mapping resolved, are those
    of the group without it, and the records logged are those of the group
    without it plus that one, in its place. *)
Theorem failing_entry_point_is_left_out E m only_installed before ep after :
  entry_point_fails E m ep →
  ∃ level text,
    _autodetect_language_servers
      (with_entry_points E (before ++ ep :: after)) m only_installed
    = ((_autodetect_language_servers
          (with_entry_points E before) m only_installed).1
       ++ Log level text
       :: (_autodetect_language_servers
             (with_entry_points E after) m only_installed).1,
       (_autodetect_language_servers
          (with_entry_points E (before ++ after)) m only_installed).2)
    ∧ outcome (_collect_language_servers
                 (with_entry_points E (before ++ ep :: after)) only_installed m)
      = outcome (_collect_language_servers
                   (with_entry_points E (before ++ after)) only_installed m).
Proof.
  intros Hfails.
  destruct (failing_entry_point_yields_nothing E m only_installed ep Hfails)
    as (level & text & Hep).
  exists level, text.
  assert (∀ eps, _autodetect_language_servers (with_entry_points E eps)
                   m only_installed
                 = (concat ((entry_point_specs E m only_installed <$> eps).*1),
                    concat ((entry_point_specs E m only_installed <$> eps).*2)))
    as Hrun by done.
  assert ((_autodetect_language_servers
             (with_entry_points E (before ++ ep :: after)) m only_installed).2
          = (_autodetect_language_servers
               (with_entry_points E (before ++ after)) m only_installed).2)
    as Hpairs.
  { rewrite !Hrun. simpl. rewrite !fmap_app, !fmap_cons, !concat_app.
    simpl. by rewrite Hep. }
  split.
  - rewrite (surjective_pairing (_autodetect_language_servers
               (with_entry_points E (before ++ ep :: after)) m only_installed)).
    rewrite Hpairs. f_equal.
    rewrite !Hrun. simpl. rewrite !fmap_app, !fmap_cons, !concat_app.
    simpl. by rewrite Hep.
  - rewrite !(proj1 (collect_returns _ _ _)).
    unfold merged_language_servers, discovered_language_servers.
    by rewrite Hpairs.
Qed.

(** ** The default of [conf_d_language_servers] *)

Section conf_d_facts.
Context (ConfigManager_get :
           string → gmap string (gmap string (gmap string Spec))).
Context (class_name : string).

Lemma default_conf_d_snoc sections app :
  _default_conf_d_language_servers (sections ++ [app])
    ConfigManager_get class_name
  = dict_update
      (_default_conf_d_language_servers sections ConfigManager_get class_name)
      (section_language_servers ConfigManager_get class_name app).
Proof. unfold _default_conf_d_language_servers. by rewrite foldl_app. Qed.

Lemma default_conf_d_undefined sections k :
  (∀ app, app ∈ sections →
          section_language_servers ConfigManager_get class_name app !! k = None) →
  _default_conf_d_language_servers sections ConfigManager_get class_name !! k
  = None.
Proof.
  induction sections as [|app sections IH] using rev_ind; intros Hnone.
  - apply lookup_empty.
  - rewrite default_conf_d_snoc, dict_update_lookup.
    rewrite (Hnone app) by (apply elem_of_app; right; by apply list_elem_of_singleton).
    apply IH. intros app' Happ'. apply Hnone, elem_of_app. by left.
Qed.

Lemma default_conf_d_last before app after k :
  (∀ later, later ∈ after →
     section_language_servers ConfigManager_get class_name later !! k = None) →
  _default_conf_d_language_servers (before ++ app :: after)
    ConfigManager_get class_name !! k
  = match section_language_servers ConfigManager_get class_name app !! k with
    | Some s => Some s
    | None =>
        _default_conf_d_language_servers before
          ConfigManager_get class_name !! k
    end.
Proof.
  induction after as [|last after IH] using rev_ind; intros Hnone.
  - by rewrite default_conf_d_snoc, dict_update_lookup.
  - change (before ++ app :: after ++ [last])
      with (before ++ (app :: after) ++ [last]).
    rewrite app_assoc, default_conf_d_snoc, dict_update_lookup.
    rewrite (Hnone last) by (apply elem_of_app; right; by apply list_elem_of_singleton).
    apply IH. intros later Hlater. apply Hnone, elem_of_app. by left.
Qed.

(** X7: the default of [conf_d_language_servers] has, for a key, the spec
    that the last section of [APP_CONFIG_D_SECTIONS] defining the key gives
    it for the manager's class: a section that defines the key overrides
    the sections before it, and a key that no section defines has no
    entry. *)
Theorem last_section_wins sections k :
  (∀ before app after s,
     sections = before ++ app :: after →
     section_language_servers ConfigManager_get class_name app !! k = Some s →
     (∀ later, later ∈ after →
        section_language_servers ConfigManager_get class_name later !! k
        = None) →
     _default_conf_d_language_servers sections ConfigManager_get class_name
       !! k = Some s)
  ∧ ((∀ app, app ∈ sections →
        section_language_servers ConfigManager_get class_name app !! k = None) →
     _default_conf_d_language_servers sections ConfigManager_get class_name
       !! k = None).
Proof.
  split; [|apply default_conf_d_undefined].
  intros before app after s -> Happ Hafter.
  by rewrite (default_conf_d_last before app after k Hafter), Happ.
Qed.
End conf_d_facts.

(** ** Subscriptions *)

(** X8: for a handler whose key has a live session, [subscribe] returns,
    logs nothing, keeps the former subscribers and adds the handler; a
    second [subscribe] of the same handler changes nothing more. *)
Theorem subscribe_adds_once m handler session members :
  sessions m !! language_server handler = Some session →
  subscribers m session = Some members →
  outcome (subscribe handler m) = Returned tt
  ∧ trace (subscribe handler m) = []
  ∧ subscribers (state_after (subscribe handler m)) session
    = Some ({[handler]} ∪ members)
  ∧ subscribers
      (state_after ((do subscribe handler then subscribe handler) m)) session
    = Some ({[handler]} ∪ members).
Proof.
  intros Hsession Hmembers.
  destruct (subscribe_run m handler session members Hsession Hmembers)
    as (s & Hs & Hsub).
  pose proof (rebound_subscribers m session s ({[handler]} ∪ members)) as Hmid.
  destruct (subscribe_run _ handler session _
              (eq_trans (f_equal (.!! _) (rebound_sessions m session s _)) Hsession)
              Hmid)
    as (s' & Hs' & Hagain).
  unfold bind, outcome, trace, state_after. rewrite Hsub, Hagain. simpl.
  rewrite !rebound_subscribers. split_and!; [done..|].
  f_equal. apply set_eq. intros h.
  rewrite !elem_of_union. tauto.
Qed.

(** X9: for a handler whose key has a live session, [unsubscribe]
    returns, logs nothing and removes that handler and no other; when the
    handler was not subscribed the subscribers stay the same. *)
Theorem unsubscribe_removes_only_the_handler m handler session members :
  sessions m !! language_server handler = Some session →
  subscribers m session = Some members →
  outcome (unsubscribe handler m) = Returned tt
  ∧ trace (unsubscribe handler m) = []
  ∧ (∀ members',
       subscribers (state_after (unsubscribe handler m)) session
       = Some members' →
       ∀ h, h ∈ members' ↔ h ∈ members ∧ h ≠ handler)
  ∧ (handler ∉ members →
     subscribers (state_after (unsubscribe handler m)) session = Some members).
Proof.
  intros Hsession Hmembers.
  destruct (unsubscribe_run m handler session members Hsession Hmembers)
    as (s & Hs & Hunsub).
  unfold outcome, trace, state_after. rewrite Hunsub. simpl.
  rewrite !rebound_subscribers. split_and!; [done..| |].
  - intros members' [= <-] h. rewrite elem_of_filter. tauto.
  - intros Hnotin. f_equal. apply set_eq. intros h.
    rewrite elem_of_filter. split; [tauto|].
    intros Hh. split; [by intros ->|done].
Qed.

Lemma run_call_state c m :
  (run_call c m).1.2 = m
  ∨ ∃ session s members,
      sessions m !! language_server
                      (match c with
                       | CallSubscribe handler | CallUnsubscribe handler =>
                           handler
                       end) = Some session
      ∧ session_objs m !! session = Some s
      ∧ (run_call c m).1.2 = rebound session s members m.
Proof.
  destruct c as [handler|handler]; simpl.
  - unfold subscribe, session_handlers, bind, get, the_session.
    destruct (sessions m !! language_server handler) as [session|]; [|by left].
    destruct (session_objs m !! session) as [s|] eqn:Hs; [|by left].
    unfold the_set.
    destruct (set_objs m !! handlers s) as [members|] eqn:Hset; [|by left].
    rewrite (assign_handlers_run m session s _ Hs). right. by eexists _, _, _.
  - unfold unsubscribe, session_handlers, bind, get, the_session.
    destruct (sessions m !! language_server handler) as [session|]; [|by left].
    destruct (session_objs m !! session) as [s|] eqn:Hs; [|by left].
    unfold the_set.
    destruct (set_objs m !! handlers s) as [members|] eqn:Hset; [|by left].
    rewrite (assign_handlers_run m session s _ Hs). right. by eexists _, _, _.
Qed.

Lemma rebound_other_subscribers m session s members other others :
  other ≠ session →
  subscribers m other = Some others →
  subscribers (rebound session s members m) other = Some others.
Proof.
  intros Hother (s' & Hs' & Hset)%subscribers_Some.
  apply subscribers_Some. exists s'. unfold rebound. simpl.
  rewrite lookup_insert_ne by done. split; [done|].
  rewrite lookup_insert_ne; [done|].
  intros Heq. rewrite <- Heq in Hset. by rewrite fresh_set_ref in Hset.
Qed.

(** X10: a [subscribe] or an [unsubscribe], whatever its outcome, leaves
    the table of sessions, the resolved servers and the listeners as they
    were, and leaves every session other than the handler's with the
    subscribers it had. *)
Theorem subscription_calls_touch_one_session c m :
  sessions (state_after (run_call c m)) = sessions m
  ∧ resolution_kept m (state_after (run_call c m))
  ∧ listeners_kept m (state_after (run_call c m))
  ∧ ∀ other others,
      sessions m !! language_server
                      (match c with
                       | CallSubscribe handler | CallUnsubscribe handler =>
                           handler
                       end) ≠ Some other →
      subscribers m other = Some others →
      subscribers (state_after (run_call c m)) other = Some others.
Proof.
  unfold state_after.
  destruct (run_call_state c m)
    as [-> | (session & s & members & Hsession & Hs & ->)].
  - by split_and!.
  - split_and!; [done..|]. intros other others Hother Hothers.
    apply rebound_other_subscribers; [|done]. by intros ->.
Qed.

(** ** Server messages *)

Lemma for_set_alone ref (members : gset Handler) message turns :
  ∀ p m,
    set_objs m !! ref = Some members →
    p + turns = size members →
    for_set turns {| it_set := ref; it_used := size members; it_pos := p |}
      (λ _, ret tt) (λ handler, write_message handler message) m
    = (if forallb ws_open (drop p (elements members))
       then Returned tt else Raised "WebSocketClosedError",
       m,
       (λ handler, HandlerWrite handler message)
         <$> open_prefix (drop p (elements members))).
Proof.
  induction turns as [|turns IH]; intros p m Href Hp.
  - cbn [for_set it_pos]. unfold bind at 1, ret at 1. unfold bind at 1.
    rewrite (set_iter_next_run m ref members p Href).
    rewrite (lookup_ge_None_2 (elements members) p)
      by (change (length (elements members)) with (size members); lia).
    rewrite drop_ge
      by (change (length (elements members)) with (size members); lia).
    done.
  - cbn [for_set it_pos]. unfold bind at 1, ret at 1. unfold bind at 1.
    rewrite (set_iter_next_run m ref members p Href).
    destruct (lookup_lt_is_Some_2 (elements members) p) as [h Hh].
    { change (length (elements members)) with (size members). lia. }
    rewrite Hh, (drop_S _ _ _ Hh). cbn [forallb open_prefix].
    unfold bind at 1. rewrite write_message_run.
    destruct (ws_open h) eqn:Hopen; cbn [andb]; [|done].
    unfold advance. cbn [it_pos it_set it_used].
    by rewrite (IH (S p) m Href ltac:(lia)).
Qed.

(** X11: a message from a session that the table of sessions has under
    no key is still broadcast: no listener is notified, the handlers of the
    session are written to in turn up to the first whose write raises, and
    the manager stays as it was. *)
Theorem unlisted_session_still_broadcasts message session m members :
  (∀ key, sessions m !! key ≠ Some session) →
  subscribers m session = Some members →
  on_server_message message session m
  = (if forallb ws_open (elements members)
     then Returned tt else Raised "WebSocketClosedError",
     m,
     (λ handler, HandlerWrite handler message)
       <$> open_prefix (elements members)).
Proof.
  intros Hunlisted (s & Hs & Hset)%subscribers_Some.
  unfold on_server_message, on_server_message_meanwhile.
  unfold bind at 1, get.
  assert (filter (λ kv : string * nat, kv.2 = session)
            (map_to_list (sessions m)) = []) as ->.
  { apply elem_of_nil_inv. intros [key session'].
    rewrite list_elem_of_filter, elem_of_map_to_list. simpl.
    intros [-> Hkey]. by apply (Hunlisted key). }
  unfold bind at 1. cbn [fmap list_fmap for_each ret].
  unfold bind at 1, the_session. rewrite Hs.
  unfold bind at 1, set_iter. unfold bind at 1, the_set. rewrite Hset.
  cbn [ret it_used].
  rewrite (for_set_alone (handlers s) members message (size members) 0 m
             Hset eq_refl).
  by rewrite drop_0.
Qed.

(** ** Sessions *)

Lemma LanguageServerSession_new_run key sp m :
  LanguageServerSession_new key sp m
  = (Returned (fresh (dom (session_objs m))), with_new_session key sp m,
     [SessionCreated key (fresh (dom (session_objs m)))]).
Proof. reflexivity. Qed.

Lemma fresh_session_ref m :
  session_objs m !! fresh (dom (session_objs m)) = None.
Proof. apply not_elem_of_dom, is_fresh. Qed.

Lemma with_new_session_kept key sp m :
  session_objs_kept m (with_new_session key sp m)
  ∧ sets_kept m (with_new_session key sp m).
Proof.
  split.
  - intros ref s Href. unfold with_new_session. simpl.
    rewrite lookup_insert_ne; [done|].
    intros Heq. rewrite <- Heq in Href. by rewrite fresh_session_ref in Href.
  - intros ref members Href. unfold with_new_session. simpl.
    rewrite lookup_insert_ne; [done|].
    intros Heq. rewrite <- Heq in Href. by rewrite fresh_set_ref in Href.
Qed.

Lemma build_sessions_run items :
  ∀ acc m,
    NoDup items.*1 →
    ∃ built m' t,
      build_sessions items acc m = (Returned built, m', t)
      ∧ created_keys t = items.*1
      ∧ (∀ k, k ∉ items.*1 → built !! k = acc !! k)
      ∧ (∀ k sp, (k, sp) ∈ items →
           ∃ ref s,
             built !! k = Some ref
             ∧ session_objs m !! ref = None
             ∧ session_objs m' !! ref = Some s
             ∧ session_language_server s = k
             ∧ spec s = sp
             ∧ set_objs m' !! handlers s = Some ∅)
      ∧ session_objs_kept m m'
      ∧ sets_kept m m'
      ∧ sessions m' = sessions m
      ∧ resolution_kept m m'
      ∧ listeners_kept m m'.
Proof.
  induction items as [|[key sp] items IH]; intros acc m Hnodup.
  - exists acc, m, [].
    split; [done|]. split; [done|]. split; [done|].
    split; [intros k sp' Hin; by apply elem_of_nil in Hin|].
    split; [by intros ref s|]. split; [apply sets_kept_refl|]. split; [done|].
    split; by repeat split.
  - apply NoDup_cons in Hnodup as [Hkey Hnodup].
    cbn [build_sessions]. unfold bind at 1.
    rewrite LanguageServerSession_new_run.
    destruct (IH (<[key := fresh (dom (session_objs m))]> acc)
                (with_new_session key sp m) Hnodup)
      as (built & m' & t & -> & Hkeys & Hacc & Hnew & Hobjs & Hsets
          & Hsessions & Hres & Hlis).
    destruct (with_new_session_kept key sp m) as [Hobjs1 Hsets1].
    exists built, m', (SessionCreated key (fresh (dom (session_objs m))) :: t).
    split_and!.
    + done.
    + simpl. by rewrite Hkeys.
    + intros k Hk. simpl in Hk. apply not_elem_of_cons in Hk as [Hne Hk].
      rewrite (Hacc k Hk). by rewrite lookup_insert_ne.
    + intros k sp' Hin. apply elem_of_cons in Hin as [[= -> ->] | Hin].
      * exists (fresh (dom (session_objs m))),
          {| session_language_server := key; spec := sp;
             handlers := fresh (dom (set_objs m)) |}.
        split_and!; try done.
        -- rewrite (Hacc key Hkey). apply lookup_insert_eq.
        -- apply fresh_session_ref.
        -- apply Hobjs. unfold with_new_session. simpl. apply lookup_insert_eq.
        -- apply Hsets. unfold with_new_session. simpl. apply lookup_insert_eq.
      * destruct (Hnew k sp' Hin)
          as (ref & s & Hk & Hfresh & Hs & Hname & Hspec & Hset).
        exists ref, s. split_and!; try done.
        unfold with_new_session in Hfresh. simpl in Hfresh.
        by apply lookup_insert_None in Hfresh as [? _].
    + intros ref s Href. by apply Hobjs, Hobjs1.
    + by eapply sets_kept_trans.
    + by rewrite Hsessions.
    + destruct Hres as (? & ? & ? & ? & ?). by split_and!.
    + destruct Hlis as (? & ? & ? & ? & ? & ?). by split_and!.
Qed.

Lemma init_sessions_run m :
  ∃ m' t,
    init_sessions m = (Returned tt, m', t)
    ∧ dom (sessions m') = dom (language_servers m)
    ∧ created_keys t = (map_to_list (language_servers m)).*1
    ∧ (∀ k sp, language_servers m !! k = Some sp →
         ∃ ref s,
           sessions m' !! k = Some ref
           ∧ session_objs m !! ref = None
           ∧ session_objs m' !! ref = Some s
           ∧ session_language_server s = k
           ∧ spec s = sp
           ∧ subscribers m' ref = Some ∅)
    ∧ (∀ k1 k2 ref, sessions m' !! k1 = Some ref →
                    sessions m' !! k2 = Some ref → k1 = k2)
    ∧ session_objs_kept m m'
    ∧ sets_kept m m'
    ∧ resolution_kept m m'
    ∧ listeners_kept m m'.
Proof.
  destruct (build_sessions_run (map_to_list (language_servers m)) ∅ m
              (NoDup_fst_map_to_list _))
    as (built & m1 & t & Hrun & Hkeys & Hacc & Hnew & Hobjs & Hsets
        & Hsessions & Hres & Hlis).
  exists (set_sessions built m1), t.
  assert (∀ k sp, language_servers m !! k = Some sp →
            ∃ ref s,
              built !! k = Some ref
              ∧ session_objs m !! ref = None
              ∧ session_objs m1 !! ref = Some s
              ∧ session_language_server s = k
              ∧ spec s = sp
              ∧ subscribers (set_sessions built m1) ref = Some ∅) as Hmade.
  { intros k sp Hk. apply elem_of_map_to_list in Hk.
    destruct (Hnew k sp Hk) as (ref & s & ? & ? & Hs & ? & ? & Hset).
    exists ref, s. split_and!; try done.
    apply subscribers_Some. by exists s. }
  assert (∀ k, is_Some (built !! k) → is_Some (language_servers m !! k))
    as Honly.
  { intros k Hk. destruct (language_servers m !! k) as [sp|] eqn:Hls; [done|].
    rewrite Hacc, lookup_empty in Hk; [by destruct Hk|].
    intros ((k' & sp) & -> & Hin)%list_elem_of_fmap.
    apply elem_of_map_to_list in Hin. simpl in Hls. congruence. }
  split_and!.
  - unfold init_sessions, bind, get. by rewrite Hrun, app_nil_r.
  - apply set_eq. intros k. rewrite !elem_of_dom. simpl. split; [apply Honly|].
    intros [sp Hk]. destruct (Hmade k sp Hk) as (ref & ? & -> & _). done.
  - done.
  - done.
  - simpl. intros k1 k2 ref Hk1 Hk2.
    destruct (Honly k1 (mk_is_Some _ _ Hk1)) as [sp1 Hsp1].
    destruct (Honly k2 (mk_is_Some _ _ Hk2)) as [sp2 Hsp2].
    destruct (Hmade k1 sp1 Hsp1) as (ref1 & s1 & Href1 & _ & Hs1 & Hname1 & _).
    destruct (Hmade k2 sp2 Hsp2) as (ref2 & s2 & Href2 & _ & Hs2 & Hname2 & _).
    rewrite Hk1 in Href1. rewrite Hk2 in Href2.
    injection Href1 as <-. injection Href2 as <-.
    rewrite Hs1 in Hs2. injection Hs2 as <-. congruence.
  - done.
  - done.
  - done.
  - done.
Qed.

(** X12: [init_sessions] returns and replaces the table of sessions by
    one with exactly the keys of [language_servers]: each key gets a
    session object of its own, made anew, that carries the key and its
    spec and has no subscriber; no two keys share a session; one session is
    created per key; the objects already in the store, the resolved servers
    and the listeners are left as they were. *)
Theorem init_sessions_makes_one_session_per_server m :
  ∃ m' t,
    init_sessions m = (Returned tt, m', t)
    ∧ dom (sessions m') = dom (language_servers m)
    ∧ created_keys t = (map_to_list (language_servers m)).*1
    ∧ (∀ k sp, language_servers m !! k = Some sp →
         ∃ ref s,
           sessions m' !! k = Some ref
           ∧ session_objs m !! ref = None
           ∧ session_objs m' !! ref = Some s
           ∧ session_language_server s = k
           ∧ spec s = sp
           ∧ subscribers m' ref = Some ∅)
    ∧ (∀ k1 k2 ref, sessions m' !! k1 = Some ref →
                    sessions m' !! k2 = Some ref → k1 = k2)
    ∧ session_objs_kept m m'
    ∧ sets_kept m m'
    ∧ resolution_kept m m'
    ∧ listeners_kept m m'.
Proof. apply init_sessions_run. Qed.

(** ** Listeners *)

Lemma resolution_kept_trans m1 m2 m3 :
  resolution_kept m1 m2 → resolution_kept m2 m3 → resolution_kept m1 m3.
Proof.
  intros (H1 & H2 & H3 & H4 & H5) (K1 & K2 & K3 & K4 & K5).
  repeat split; congruence.
Qed.

Lemma subscriptions_kept_trans m1 m2 m3 :
  subscriptions_kept m1 m2 → subscriptions_kept m2 m3 →
  subscriptions_kept m1 m3.
Proof. intros (H1 & H2 & H3) (K1 & K2 & K3). repeat split; congruence. Qed.

Lemma load_listeners_run scope eps :
  ∀ m, ∃ m',
    for_each eps
      (λ ep : string * attempt string,
         match ep.2 with
         | Returned listener => append_listener scope listener
         | Raised err =>
             emit (Log LvlWarning ("Failed to load entry point " ++ ep.1)%string)
         end) m
    = (Returned tt, m', load_warnings eps)
    ∧ configured_listeners scope m'
      = configured_listeners scope m ++ loaded_listeners eps
    ∧ (∀ scope', scope' ≠ scope →
         configured_listeners scope' m' = configured_listeners scope' m)
    ∧ resolution_kept m m'
    ∧ subscriptions_kept m m'.
Proof.
  induction eps as [|[name [listener|err]] eps IH]; intros m.
  - exists m. rewrite app_nil_r. by repeat split.
  - destruct (IH (match scope with
                  | ALL => set_all_listeners (all_listeners m ++ [listener]) m
                  | CLIENT =>
                      set_client_listeners (client_listeners m ++ [listener]) m
                  | SERVER =>
                      set_server_listeners (server_listeners m ++ [listener]) m
                  end)) as (m' & Hrun & Hconf & Hother & Hres & Hsub).
    exists m'. cbn [for_each snd]. unfold bind at 1, append_listener at 1.
    rewrite Hrun. split_and!.
    + done.
    + rewrite Hconf. destruct scope; simpl; by rewrite <- app_assoc.
    + intros scope' Hne. rewrite (Hother scope' Hne).
      by destruct scope, scope'.
    + eapply resolution_kept_trans; [|exact Hres]. by destruct scope.
    + eapply subscriptions_kept_trans; [|exact Hsub]. by destruct scope.
  - destruct (IH m) as (m' & Hrun & Hconf & Hother & Hres & Hsub).
    exists m'. cbn [for_each snd]. unfold bind at 1, emit at 1.
    rewrite Hrun. by split_and!.
Qed.

Lemma register_listeners_run scope listeners :
  ∀ m, ∃ m',
    for_each listeners (register_message_listener scope) m
    = (Returned tt, m', ListenerRegistered scope <$> listeners)
    ∧ (∀ scope', configured_listeners scope' m'
                 = configured_listeners scope' m)
    ∧ resolution_kept m m'
    ∧ subscriptions_kept m m'.
Proof.
  induction listeners as [|listener listeners IH]; intros m.
  - exists m. by repeat split.
  - destruct (IH (match scope with
                  | ALL => set_registered_all (registered_all m ++ [listener]) m
                  | CLIENT =>
                      set_registered_client (registered_client m ++ [listener]) m
                  | SERVER =>
                      set_registered_server (registered_server m ++ [listener]) m
                  end)) as (m' & Hrun & Hconf & Hres & Hsub).
    exists m'. cbn [for_each]. unfold bind at 1, register_message_listener at 1.
    unfold bind at 1, emit at 1. rewrite Hrun. split_and!.
    + done.
    + intros scope'. rewrite (Hconf scope'). by destruct scope, scope'.
    + eapply resolution_kept_trans; [|exact Hres]. by destruct scope.
    + eapply subscriptions_kept_trans; [|exact Hsub]. by destruct scope.
Qed.

Lemma init_scope_listeners_run E scope eps m :
  listener_entry_points E scope = Returned eps →
  ∃ m',
    init_scope_listeners E scope m
    = (Returned tt, m',
       load_warnings eps
       ++ (ListenerRegistered scope
             <$> (configured_listeners scope m ++ loaded_listeners eps)))
    ∧ configured_listeners scope m'
      = configured_listeners scope m ++ loaded_listeners eps
    ∧ (∀ scope', scope' ≠ scope →
         configured_listeners scope' m' = configured_listeners scope' m)
    ∧ resolution_kept m m'
    ∧ subscriptions_kept m m'.
Proof.
  intros Hread.
  destruct (load_listeners_run scope eps m)
    as (m1 & Hload & Hconf & Hother & Hres & Hsub).
  destruct (register_listeners_run scope (configured_listeners scope m1) m1)
    as (m2 & Hreg & Hconf2 & Hres2 & Hsub2).
  exists m2. unfold init_scope_listeners.
  unfold bind at 1, call. rewrite Hread.
  unfold bind at 1. rewrite Hload.
  unfold bind at 1, get. rewrite Hreg. rewrite Hconf. split_and!.
  - done.
  - by rewrite Hconf2.
  - intros scope' Hne. by rewrite Hconf2, Hother.
  - by eapply resolution_kept_trans.
  - by eapply subscriptions_kept_trans.
Qed.

Lemma init_scope_listeners_raises E scope err m :
  listener_entry_points E scope = Raised err →
  init_scope_listeners E scope m = (Raised err, m, []).
Proof.
  intros Hread. unfold init_scope_listeners, bind, call. by rewrite Hread.
Qed.

Lemma init_listeners_run E groups m :
  (∀ scope, listener_entry_points E scope = Returned (groups scope)) →
  ∃ m',
    init_listeners E m
    = (Returned tt, m',
       [ALL; CLIENT; SERVER] ≫= λ scope,
         load_warnings (groups scope)
         ++ (ListenerRegistered scope
               <$> (configured_listeners scope m
                    ++ loaded_listeners (groups scope))))
    ∧ (∀ scope,
         configured_listeners scope m'
         = configured_listeners scope m ++ loaded_listeners (groups scope))
    ∧ resolution_kept m m'
    ∧ subscriptions_kept m m'.
Proof.
  intros Hread.
  destruct (init_scope_listeners_run E ALL _ m (Hread ALL))
    as (m1 & H1 & Hc1 & Ho1 & Hr1 & Hs1).
  destruct (init_scope_listeners_run E CLIENT _ m1 (Hread CLIENT))
    as (m2 & H2 & Hc2 & Ho2 & Hr2 & Hs2).
  destruct (init_scope_listeners_run E SERVER _ m2 (Hread SERVER))
    as (m3 & H3 & Hc3 & Ho3 & Hr3 & Hs3).
  exists m3. split_and!.
  - unfold init_listeners. cbn [for_each]. unfold bind at 1. rewrite H1.
    unfold bind at 1. rewrite H2. unfold bind at 1. rewrite H3.
    unfold ret. cbn [mbind list_bind].
    rewrite (Ho1 CLIENT) by done.
    rewrite (Ho2 SERVER), (Ho1 SERVER) by done.
    by rewrite !app_nil_r, <- !app_assoc.
  - intros [].
    + by rewrite (Ho3 ALL), (Ho2 ALL), Hc1.
    + by rewrite (Ho3 CLIENT), Hc2, (Ho1 CLIENT).
    + by rewrite Hc3, (Ho2 SERVER), (Ho1 SERVER).
  - eapply resolution_kept_trans; [|exact Hr3].
    by eapply resolution_kept_trans.
  - eapply subscriptions_kept_trans; [|exact Hs3].
    by eapply subscriptions_kept_trans.
Qed.

Lemma init_listeners_raises E groups before scope after err m :
  [ALL; CLIENT; SERVER] = before ++ scope :: after →
  (∀ sc, sc ∈ before → listener_entry_points E sc = Returned (groups sc)) →
  listener_entry_points E scope = Raised err →
  ∃ m',
    init_listeners E m
    = (Raised err, m',
       before ≫= λ sc,
         load_warnings (groups sc)
         ++ (ListenerRegistered sc
               <$> (configured_listeners sc m ++ loaded_listeners (groups sc))))
    ∧ (∀ sc, sc ∈ before →
         configured_listeners sc m'
         = configured_listeners sc m ++ loaded_listeners (groups sc))
    ∧ (∀ sc, sc ∉ before →
         configured_listeners sc m' = configured_listeners sc m)
    ∧ resolution_kept m m'
    ∧ subscriptions_kept m m'.
Proof.
  intros Hsplit Hread Hraise. unfold init_listeners.
  destruct before as [|b1 [|b2 [|b3 before]]];
    simplify_eq/=.
  - exists m. unfold bind at 1.
    rewrite (init_scope_listeners_raises E ALL err m Hraise).
    split_and!; [done| |done|by repeat split|by repeat split].
    intros sc Hsc. by apply elem_of_nil in Hsc.
  - destruct (init_scope_listeners_run E ALL _ m
                (Hread ALL ltac:(by left)))
      as (m1 & H1 & Hc1 & Ho1 & Hr1 & Hs1).
    exists m1. unfold bind at 1. rewrite H1. unfold bind at 1.
    rewrite (init_scope_listeners_raises E CLIENT err m1 Hraise).
    split_and!.
    + by rewrite !app_nil_r.
    + intros sc Hsc. by apply list_elem_of_singleton in Hsc as ->.
    + intros sc Hsc. apply Ho1. intros ->. apply Hsc. by left.
    + done.
    + done.
  - destruct (init_scope_listeners_run E ALL _ m
                (Hread ALL ltac:(by left)))
      as (m1 & H1 & Hc1 & Ho1 & Hr1 & Hs1).
    destruct (init_scope_listeners_run E CLIENT _ m1
                (Hread CLIENT ltac:(by right; left)))
      as (m2 & H2 & Hc2 & Ho2 & Hr2 & Hs2).
    exists m2. unfold bind at 1. rewrite H1. unfold bind at 1. rewrite H2.
    unfold bind at 1.
    rewrite (init_scope_listeners_raises E SERVER err m2 Hraise).
    split_and!.
    + rewrite (Ho1 CLIENT) by done. by rewrite !app_nil_r, <- !app_assoc.
    + intros sc Hsc. apply elem_of_cons in Hsc as [-> | Hsc].
      * by rewrite (Ho2 ALL), Hc1.
      * apply list_elem_of_singleton in Hsc as ->.
        by rewrite Hc2, (Ho1 CLIENT).
    + intros sc Hsc. rewrite (Ho2 sc), (Ho1 sc); [done|..].
      * intros ->. apply Hsc. by left.
      * intros ->. apply Hsc. right. by left.
    + by eapply resolution_kept_trans.
    + by eapply subscriptions_kept_trans.
  - by destruct before.
Qed.

(** X13: when the listener groups can be read, [init_listeners] returns:
    scope by scope, in the order ALL, CLIENT, SERVER, it appends to the
    configured list of the scope the listeners that the entry points of the
    scope load, logs one warning per entry point that does not load, and
    then registers every listener of the list so extended, in order. When
    reading the group of a scope raises, [init_listeners] raises the same
    exception, having done all that for the scopes before it and nothing
    for that scope and the later ones. Either way it leaves the resolved
    servers, the sessions and their subscribers as they were. *)
Theorem init_listeners_registers_configured_and_loaded E m :
  (∀ groups,
     (∀ scope, listener_entry_points E scope = Returned (groups scope)) →
     ∃ m',
       init_listeners E m
       = (Returned tt, m',
          [ALL; CLIENT; SERVER] ≫= λ scope,
            load_warnings (groups scope)
            ++ (ListenerRegistered scope
                  <$> (configured_listeners scope m
                       ++ loaded_listeners (groups scope))))
       ∧ (∀ scope,
            configured_listeners scope m'
            = configured_listeners scope m ++ loaded_listeners (groups scope))
       ∧ resolution_kept m m'
       ∧ subscriptions_kept m m')
  ∧ (∀ groups before scope after err,
       [ALL; CLIENT; SERVER] = before ++ scope :: after →
       (∀ sc, sc ∈ before →
              listener_entry_points E sc = Returned (groups sc)) →
       listener_entry_points E scope = Raised err →
       ∃ m',
         init_listeners E m
         = (Raised err, m',
            before ≫= λ sc,
              load_warnings (groups sc)
              ++ (ListenerRegistered sc
                    <$> (configured_listeners sc m
                         ++ loaded_listeners (groups sc))))
         ∧ (∀ sc, sc ∈ before →
              configured_listeners sc m'
              = configured_listeners sc m ++ loaded_listeners (groups sc))
         ∧ (∀ sc, sc ∉ before →
              configured_listeners sc m' = configured_listeners sc m)
         ∧ resolution_kept m m'
         ∧ subscriptions_kept m m').
Proof.
  split.
  - intros groups. apply init_listeners_run.
  - intros groups before scope after err. apply init_listeners_raises.
Qed.


(** ** Initialization, then subscription *)



(** ** Subscription, then broadcast *)

Lemma open_prefix_elem hs h : h ∈ open_prefix hs → h ∈ hs.
Proof.
  induction hs as [|h' hs IH]; [done|]. simpl.
  destruct (ws_open h'); [|by intros ?%elem_of_nil].
  intros [-> | Hin]%elem_of_cons; [by left|]. right. by apply IH.
Qed.

(** X15: once a handler has subscribed it is among the handlers that
    [on_server_message] writes the session's messages to, provided that
    its socket and those of the other subscribers are open; once it has
    unsubscribed, no message of the session is written to it. *)
Theorem subscription_decides_delivery m handler session members message :
  sessions m !! language_server handler = Some session →
  subscribers m session = Some members →
  (ws_open handler = true → (∀ h, h ∈ members → ws_open h = true) →
   handler ∈ delivered message
               (trace (on_server_message message session
                         (state_after (subscribe handler m)))))
  ∧ handler ∉ delivered message
                (trace (on_server_message message session
                          (state_after (unsubscribe handler m)))).
Proof.
  intros Hsession Hmembers.
  destruct (subscribe_run m handler session members Hsession Hmembers)
    as (s & Hs & Hsub).
  destruct (unsubscribe_run m handler session members Hsession Hmembers)
    as (s' & Hs' & Hunsub).
  unfold state_after. rewrite Hsub, Hunsub. simpl. split.
  - intros Hopen Hothers.
    pose proof (rebound_subscribers m session s ({[handler]} ∪ members))
      as (s1 & Hs1 & Hset1)%subscribers_Some.
    destruct (on_server_message_meanwhile_run (λ _, ret tt) message
                (alone_is_quiet message) _ session s1 _ Hs1 Hset1)
      as (m' & listened & written & Hrun & Hquiet & Hwritten & _).
    unfold on_server_message. rewrite Hrun. unfold trace. simpl.
    rewrite delivered_app, Hquiet, Hwritten. simpl.
    destruct (open_prefix_all (elements ({[handler]} ∪ members))) as [-> _].
    { apply Forall_forall. intros h Hh. apply elem_of_elements in Hh.
      apply elem_of_union in Hh as [->%elem_of_singleton | Hh]; [done|].
      by apply Hothers. }
    apply elem_of_elements, elem_of_union. left. by apply elem_of_singleton.
  - pose proof (rebound_subscribers m session s'
                  (filter (λ h, h ≠ handler) members))
      as (s1 & Hs1 & Hset1)%subscribers_Some.
    destruct (on_server_message_meanwhile_run (λ _, ret tt) message
                (alone_is_quiet message) _ session s1 _ Hs1 Hset1)
      as (m' & listened & written & Hrun & Hquiet & Hwritten & _).
    unfold on_server_message. rewrite Hrun. unfold trace. simpl.
    rewrite delivered_app, Hquiet, Hwritten. simpl.
    intros Hin%open_prefix_elem. apply elem_of_elements in Hin.
    apply elem_of_filter in Hin as [Hne _]. done.
Qed.

Lemma open_prefix_sublist hs : open_prefix hs `sublist_of` hs.
Proof.
  induction hs as [|h hs IH]; [done|]. simpl.
  destruct (ws_open h); [by apply sublist_skip|apply sublist_nil_l].
Qed.

Lemma open_prefix_open hs h : h ∈ open_prefix hs → ws_open h = true.
Proof.
  induction hs as [|h' hs IH]; [by intros ?%elem_of_nil|]. simpl.
  destruct (ws_open h') eqn:Hopen; [|by intros ?%elem_of_nil].
  intros [-> | Hin]%elem_of_cons; [done|]. by apply IH.
Qed.

(** X16: whatever [subscribe] and [unsubscribe] calls reach the manager
    while [on_server_message] iterates, the message is written to no
    handler twice, and only to handlers that were subscribed to the
    session when the iteration began and whose own write succeeded. *)
Theorem broadcast_reaches_only_subscribers calls message session m members :
  subscribers m session = Some members →
  NoDup (delivered message
           (trace (on_server_message_meanwhile (concurrent_calls calls)
                     message session m)))
  ∧ ∀ h, h ∈ delivered message
               (trace (on_server_message_meanwhile (concurrent_calls calls)
                         message session m)) →
         h ∈ members ∧ ws_open h = true.
Proof.
  intros (s & Hs & Hset)%subscribers_Some.
  destruct (on_server_message_meanwhile_run (concurrent_calls calls) message
              (concurrent_calls_quiet calls message) m session s members Hs Hset)
    as (m' & listened & written & Hrun & Hquiet & Hwritten & _).
  rewrite Hrun. unfold trace. simpl.
  rewrite delivered_app, Hquiet, Hwritten. simpl. split.
  - pose proof (NoDup_elements members) as Hnodup.
    pose proof (open_prefix_sublist (elements members)) as Hsub.
    by eapply sublist_NoDup.
  - intros h Hh. split; [|by eapply open_prefix_open].
    by apply elem_of_elements, open_prefix_elem.
Qed.

(** ** Concrete runs of the further properties *)

(** X1, witness: [py], discovered from the installed finder. *)
Lemma resolved_py_is_discovered :
  truthy_argv pyls_spec = true
  ∧ (conf_d_language_servers bare_manager !! "py" = Some pyls_spec
     ∨ _language_servers_from_config bare_manager !! "py" = Some pyls_spec
     ∨ (autodetect bare_manager = true
        ∧ ("py", pyls_spec)
            ∈ (_autodetect_language_servers shadowing_environment
                 bare_manager true).2)).
Proof.
  apply (resolved_entries_come_from_sources shadowing_environment bare_manager
           true (coalesce (merged_language_servers shadowing_environment
                             bare_manager true)) "py" pyls_spec).
  - reflexivity.
  - vm_compute. reflexivity.
Defined.

(** X2, witness: the dynamic configuration sets [py] and the group of
    entry points cannot be read. *)
Lemma unreadable_group_leaves_configuration :
  _collect_language_servers unreadable_environment true overridden_opt_out =
    (Returned (coalesce (language_servers_from_config overridden_opt_out)),
     overridden_opt_out,
     [Log LvlException "Failed to load entry_points"]).
Proof.
  apply (resolution_without_discovery unreadable_environment
           overridden_opt_out true).
  right. exists "OSError". reflexivity.
Defined.

(** X3, witness: two finders yield [py]; the second wins. *)
Lemma second_finder_wins :
  discovered_language_servers shadowing_environment bare_manager false !! "py"
  = Some pylsp_spec.
Proof.
  apply (last_yielded_pair_wins shadowing_environment bare_manager false
           [("py", pyls_spec)] [] "py" pylsp_spec).
  - reflexivity.
  - reflexivity.
  - apply not_elem_of_nil.
Defined.

(** X5, witness: [py] opted out in the dynamic configuration and yielded
    by two finders. *)
Lemma opted_out_in_both_views :
  _language_servers_from_config
    (state_after (init_language_servers shadowing_environment dynamic_opt_out))
    = language_servers dynamic_opt_out
  ∧ language_servers
      (state_after (init_language_servers shadowing_environment dynamic_opt_out))
      !! "py" = None
  ∧ all_language_servers
      (state_after (init_language_servers shadowing_environment dynamic_opt_out))
      !! "py" = None.
Proof.
  apply (configured_servers_agree shadowing_environment dynamic_opt_out
           "py" opt_out_spec).
  left. vm_compute. reflexivity.
Defined.

(** X6, witness: an entry point whose load raises, between two that
    work. *)
Lemma broken_entry_point_is_left_out :
  ∃ level text,
    _autodetect_language_servers
      (with_entry_points (environment_of [])
         ([pyls_entry_point] ++ broken_entry_point :: [rls_entry_point]))
      bare_manager false
    = ((_autodetect_language_servers
          (with_entry_points (environment_of []) [pyls_entry_point])
          bare_manager false).1
       ++ Log level text
       :: (_autodetect_language_servers
             (with_entry_points (environment_of []) [rls_entry_point])
             bare_manager false).1,
       (_autodetect_language_servers
          (with_entry_points (environment_of [])
             ([pyls_entry_point] ++ [rls_entry_point]))
          bare_manager false).2)
    ∧ outcome (_collect_language_servers
                 (with_entry_points (environment_of [])
                    ([pyls_entry_point] ++ broken_entry_point
                     :: [rls_entry_point])) false bare_manager)
      = outcome (_collect_language_servers
                   (with_entry_points (environment_of [])
                      ([pyls_entry_point] ++ [rls_entry_point]))
                   false bare_manager).
Proof.
  apply (failing_entry_point_is_left_out (environment_of []) bare_manager false
           [pyls_entry_point] broken_entry_point [rls_entry_point]).
  exact I.
Defined.

(** X7, witness: [py] is set by the second section and again by the
    third, [r] by the second alone, and nothing sets [julia]. *)
Lemma server_section_overrides_notebook :
  _default_conf_d_language_servers example_sections example_conf_d
    "LanguageServerManager" !! "py" = Some pylsp_spec
  ∧ _default_conf_d_language_servers example_sections example_conf_d
      "LanguageServerManager" !! "r" = Some rls_spec
  ∧ _default_conf_d_language_servers example_sections example_conf_d
      "LanguageServerManager" !! "julia" = None.
Proof.
  destruct (last_section_wins example_conf_d "LanguageServerManager"
              example_sections "py") as [Hpy _].
  destruct (last_section_wins example_conf_d "LanguageServerManager"
              example_sections "r") as [Hr _].
  destruct (last_section_wins example_conf_d "LanguageServerManager"
              example_sections "julia") as [_ Hjulia].
  split_and!.
  - apply (Hpy ["_"; "_notebook_"] "_server_" [] pylsp_spec).
    + reflexivity.
    + vm_compute. reflexivity.
    + intros later Hlater. by apply elem_of_nil in Hlater.
  - apply (Hr ["_"] "_notebook_" ["_server_"] rls_spec).
    + reflexivity.
    + vm_compute. reflexivity.
    + intros later Hlater. apply list_elem_of_singleton in Hlater as ->.
      vm_compute. reflexivity.
  - apply Hjulia. intros app Happ.
    apply elem_of_cons in Happ as [-> | Happ]; [vm_compute; reflexivity|].
    apply elem_of_cons in Happ as [-> | Happ]; [vm_compute; reflexivity|].
    apply list_elem_of_singleton in Happ as ->. vm_compute. reflexivity.
Defined.

(** X8, witness: a second handler subscribes to [py]. *)
Lemma second_handler_subscribes :
  outcome (subscribe (py_handler 1 true) (serving_manager {[py_handler 2 true]}))
    = Returned tt
  ∧ trace (subscribe (py_handler 1 true) (serving_manager {[py_handler 2 true]}))
    = []
  ∧ subscribers
      (state_after (subscribe (py_handler 1 true)
                      (serving_manager {[py_handler 2 true]}))) 0
    = Some ({[py_handler 1 true]} ∪ {[py_handler 2 true]})
  ∧ subscribers
      (state_after ((do subscribe (py_handler 1 true)
                     then subscribe (py_handler 1 true))
                      (serving_manager {[py_handler 2 true]}))) 0
    = Some ({[py_handler 1 true]} ∪ {[py_handler 2 true]}).
Proof.
  apply (subscribe_adds_once (serving_manager {[py_handler 2 true]})
           (py_handler 1 true) 0 {[py_handler 2 true]}).
  - vm_compute. reflexivity.
  - vm_compute. reflexivity.
Defined.

(** X9, witness: one of two subscribers leaves. *)
Lemma one_of_two_leaves :
  outcome (unsubscribe (py_handler 1 true)
             (serving_manager {[py_handler 1 true; py_handler 2 true]}))
    = Returned tt
  ∧ trace (unsubscribe (py_handler 1 true)
             (serving_manager {[py_handler 1 true; py_handler 2 true]}))
    = []
  ∧ (∀ members',
       subscribers
         (state_after (unsubscribe (py_handler 1 true)
                         (serving_manager
                            {[py_handler 1 true; py_handler 2 true]}))) 0
       = Some members' →
       ∀ h, h ∈ members'
            ↔ h ∈ ({[py_handler 1 true; py_handler 2 true]} : gset Handler)
              ∧ h ≠ py_handler 1 true)
  ∧ (py_handler 1 true
       ∉ ({[py_handler 1 true; py_handler 2 true]} : gset Handler) →
     subscribers
       (state_after (unsubscribe (py_handler 1 true)
                       (serving_manager
                          {[py_handler 1 true; py_handler 2 true]}))) 0
     = Some {[py_handler 1 true; py_handler 2 true]}).
Proof.
  apply (unsubscribe_removes_only_the_handler
           (serving_manager {[py_handler 1 true; py_handler 2 true]})
           (py_handler 1 true) 0 {[py_handler 1 true; py_handler 2 true]}).
  - vm_compute. reflexivity.
  - vm_compute. reflexivity.
Defined.

(** X10, witness: a handler subscribes to [py]; the session of [r] keeps
    its empty set of subscribers. *)
Lemma other_session_untouched :
  subscribers
    (state_after (run_call (CallSubscribe (py_handler 1 true))
                    (two_sessions_manager ∅))) 1 = Some ∅
  ∧ sessions (state_after (run_call (CallSubscribe (py_handler 1 true))
                             (two_sessions_manager ∅)))
    = sessions (two_sessions_manager ∅)
  ∧ resolution_kept (two_sessions_manager ∅)
      (state_after (run_call (CallSubscribe (py_handler 1 true))
                      (two_sessions_manager ∅)))
  ∧ listeners_kept (two_sessions_manager ∅)
      (state_after (run_call (CallSubscribe (py_handler 1 true))
                      (two_sessions_manager ∅))).
Proof.
  destruct (subscription_calls_touch_one_session
              (CallSubscribe (py_handler 1 true)) (two_sessions_manager ∅))
    as (Hsessions & Hresolution & Hlisteners & Hothers).
  split_and!; [|done..].
  apply (Hothers 1 ∅).
  - vm_compute. discriminate.
  - vm_compute. reflexivity.
Defined.

(** X13, witness: all groups can be read, or that of CLIENT cannot. *)
Lemma listeners_load_or_read_fails :
  (∃ m',
     init_listeners loading_listeners listening_manager
     = (Returned tt, m',
        [ALL; CLIENT; SERVER] ≫= λ scope,
          load_warnings (example_listener_groups scope)
          ++ (ListenerRegistered scope
                <$> (configured_listeners scope listening_manager
                     ++ loaded_listeners (example_listener_groups scope))))
     ∧ (∀ scope,
          configured_listeners scope m'
          = configured_listeners scope listening_manager
            ++ loaded_listeners (example_listener_groups scope))
     ∧ resolution_kept listening_manager m'
     ∧ subscriptions_kept listening_manager m')
  ∧ (∃ m',
       init_listeners unreadable_client_listeners listening_manager
       = (Raised "OSError", m',
          [ALL] ≫= λ sc,
            load_warnings (example_listener_groups sc)
            ++ (ListenerRegistered sc
                  <$> (configured_listeners sc listening_manager
                       ++ loaded_listeners (example_listener_groups sc))))
       ∧ (∀ sc, sc ∈ [ALL] →
            configured_listeners sc m'
            = configured_listeners sc listening_manager
              ++ loaded_listeners (example_listener_groups sc))
       ∧ (∀ sc, sc ∉ [ALL] →
            configured_listeners sc m'
            = configured_listeners sc listening_manager)
       ∧ resolution_kept listening_manager m'
       ∧ subscriptions_kept listening_manager m').
Proof.
  split.
  - apply (proj1 (init_listeners_registers_configured_and_loaded
                    loading_listeners listening_manager)
             example_listener_groups).
    intros scope. reflexivity.
  - apply (proj2 (init_listeners_registers_configured_and_loaded
                    unreadable_client_listeners listening_manager)
             example_listener_groups [ALL] CLIENT [SERVER] "OSError").
    + reflexivity.
    + intros sc Hsc. apply list_elem_of_singleton in Hsc as ->. reflexivity.
    + reflexivity.
Defined.


(** X11, witness: the session of two open handlers is no longer in the
    table. *)
Lemma orphaned_session_broadcasts :
  on_server_message "msg" 0
    (orphaned_session_manager {[py_handler 1 true; py_handler 2 true]})
  = (if forallb ws_open
          (elements ({[py_handler 1 true; py_handler 2 true]} : gset Handler))
     then Returned tt else Raised "WebSocketClosedError",
     orphaned_session_manager {[py_handler 1 true; py_handler 2 true]},
     (λ handler, HandlerWrite handler "msg")
       <$> open_prefix
             (elements ({[py_handler 1 true; py_handler 2 true]}
                          : gset Handler))).
Proof.
  apply (unlisted_session_still_broadcasts "msg" 0
           (orphaned_session_manager {[py_handler 1 true; py_handler 2 true]})
           {[py_handler 1 true; py_handler 2 true]}).
  - intros key. vm_compute. discriminate.
  - vm_compute. reflexivity.
Defined.

(** X15, witness: a handler joins or leaves a session with one other
    subscriber. *)
Lemma joining_and_leaving :
  (ws_open (py_handler 1 true) = true →
   (∀ h, h ∈ ({[py_handler 2 true]} : gset Handler) → ws_open h = true) →
   py_handler 1 true
     ∈ delivered "msg"
         (trace (on_server_message "msg" 0
                   (state_after (subscribe (py_handler 1 true)
                                   (serving_manager {[py_handler 2 true]}))))))
  ∧ py_handler 1 true
      ∉ delivered "msg"
          (trace (on_server_message "msg" 0
                    (state_after (unsubscribe (py_handler 1 true)
                                    (serving_manager {[py_handler 2 true]}))))).
Proof.
  apply (subscription_decides_delivery (serving_manager {[py_handler 2 true]})
           (py_handler 1 true) 0 {[py_handler 2 true]} "msg").
  - vm_compute. reflexivity.
  - vm_compute. reflexivity.
Defined.

(** X16, witness: both subscribers leave and a third arrives during the
    broadcast. *)
Lemma churn_reaches_only_subscribers :
  NoDup (delivered "msg"
           (trace (on_server_message_meanwhile (concurrent_calls churn) "msg" 0
                     (serving_manager
                        {[py_handler 1 true; py_handler 2 true]}))))
  ∧ ∀ h, h ∈ delivered "msg"
               (trace (on_server_message_meanwhile (concurrent_calls churn)
                         "msg" 0
                         (serving_manager
                            {[py_handler 1 true; py_handler 2 true]}))) →
         h ∈ ({[py_handler 1 true; py_handler 2 true]} : gset Handler)
         ∧ ws_open h = true.
Proof.
  apply (broadcast_reaches_only_subscribers churn "msg" 0
           (serving_manager {[py_handler 1 true; py_handler 2 true]})
           {[py_handler 1 true; py_handler 2 true]}).
  vm_compute. reflexivity.
Defined.
